(** * Flights and weather: the resumable fetch pipeline and the join engine

    A shallow embedding of [resume_weather_for_missing.py] (the fetch
    orchestrator, its retry loop and its month partitioning) and of
    [flights_weather_2024.py] (flight normalisation, weather stacking,
    de-duplication, left merge and the missing-match report), with the
    properties the specification states about them. *)

From Stdlib Require Import Ascii String QArith.
From stdpp Require Import gmap strings list fin_maps sorting.

Open Scope string_scope.
Open Scope Z_scope.
Open Scope list_scope.

(** A table cell read with [dtype=str]: [None] is pandas' NaN. *)
Abbreviation cell := (option string).

(** ** Python string helpers (ASCII) *)

Module Py.

(** [str.isspace] on the ASCII range: TAB..CR, FS..US and the blank. *)
Definition is_space (a : ascii) : bool :=
  let n := nat_of_ascii a in
  ((9 <=? n)%nat && (n <=? 13)%nat) || ((28 <=? n)%nat && (n <=? 32)%nat).

Fixpoint lstrip (s : string) : string :=
  match s with
  | String a s' => if is_space a then lstrip s' else s
  | EmptyString => EmptyString
  end.

Definition rstrip (s : string) : string := String.rev (lstrip (String.rev s)).

(** [s.strip()] *)
Definition strip (s : string) : string := rstrip (lstrip s).

Definition upper_ascii (a : ascii) : ascii :=
  let n := nat_of_ascii a in
  if ((97 <=? n)%nat && (n <=? 122)%nat) then ascii_of_nat (n - 32) else a.

(** [s.upper()] *)
Fixpoint upper (s : string) : string :=
  match s with
  | String a s' => String (upper_ascii a) (upper s')
  | EmptyString => EmptyString
  end.

(** [Series.astype(str)] on one cell: NaN becomes the text [nan]. *)
Definition astype_str (c : cell) : string := default "nan" c.

(** [bool(s)] of a string: the empty string is falsy. *)
Definition truthy (s : string) : bool :=
  match s with EmptyString => false | _ => true end.

End Py.

(** ** [datetime.date], with the ordinal arithmetic of CPython *)

Module Date.

Record date := mk { year : Z; month : Z; day : Z }.

#[global] Instance date_eq_dec : EqDecision date.
Proof. solve_decision. Defined.

Definition is_leap (y : Z) : bool :=
  (y mod 4 =? 0) && (negb (y mod 100 =? 0) || (y mod 400 =? 0)).

Definition days_before_year (y : Z) : Z :=
  let p := y - 1 in p * 365 + p / 4 - p / 100 + p / 400.

Definition DAYS_IN_MONTH : list Z := [31; 28; 31; 30; 31; 30; 31; 31; 30; 31; 30; 31].

Definition days_in_month (y m : Z) : Z :=
  if (m =? 2) && is_leap y then 29
  else default 0 (DAYS_IN_MONTH !! Z.to_nat (m - 1)).

(** days of the year before the first of month [m] *)
Definition days_before_month (y m : Z) : Z :=
  foldr Z.add 0 (take (Z.to_nat (m - 1)) DAYS_IN_MONTH)
  + (if (2 <? m) && is_leap y then 1 else 0).

(** [date.toordinal()]: 0001-01-01 is day 1 *)
Definition toordinal (d : date) : Z :=
  days_before_year (year d) + days_before_month (year d) (month d) + day d.

Definition DI400Y : Z := 146097.
Definition DI100Y : Z := 36524.
Definition DI4Y : Z := 1461.

(** [date.fromordinal(n)] *)
Definition fromordinal (n : Z) : date :=
  let n := n - 1 in
  let n400 := n / DI400Y in let n := n mod DI400Y in
  let y := n400 * 400 + 1 in
  let n100 := n / DI100Y in let n := n mod DI100Y in
  let n4 := n / DI4Y in let n := n mod DI4Y in
  let n1 := n / 365 in let n := n mod 365 in
  let y := y + n100 * 100 + n4 * 4 + n1 in
  if (n1 =? 4) || (n100 =? 4) then mk (y - 1) 12 31
  else
    let leapyear := (n1 =? 3) && (negb (n4 =? 24) || (n100 =? 3)) in
    let m := Z.shiftr (n + 50) 5 in
    let preceding :=
      foldr Z.add 0 (take (Z.to_nat (m - 1)) DAYS_IN_MONTH)
      + (if (2 <? m) && leapyear then 1 else 0) in
    if n <? preceding then
      let m' := m - 1 in
      let preceding' :=
        preceding - (default 0 (DAYS_IN_MONTH !! Z.to_nat (m' - 1))
                     + (if (m' =? 2) && leapyear then 1 else 0)) in
      mk y m' (n - preceding' + 1)
    else mk y m (n - preceding + 1).

(** [d - timedelta(days=k)] *)
Definition sub_days (d : date) (k : Z) : date := fromordinal (toordinal d - k).

(** [a > b] on dates: lexicographic on (year, month, day) *)
Definition gtb (a b : date) : bool :=
  (year b <? year a)
  || ((year a =? year b)
      && ((month b <? month a) || ((month a =? month b) && (day b <? day a)))).

Definition leb (a b : date) : bool := negb (gtb a b).

Definition digit (n : Z) : ascii := ascii_of_nat (48 + Z.to_nat (n mod 10)).

Definition pad2 (n : Z) : string := String (digit (n / 10)) (String (digit n) "").

Definition pad4 (n : Z) : string :=
  String (digit (n / 1000)) (String (digit (n / 100)) (pad2 n)).

(** [d.isoformat()], also [strftime("%Y-%m-%d")] *)
Definition isoformat (d : date) : string :=
  pad4 (year d) +:+ "-" +:+ pad2 (month d) +:+ "-" +:+ pad2 (day d).

End Date.

Import Date.

(** ** [resume_weather_for_missing.py] *)

Module Resume.

Definition SLEEP_BETWEEN_REQUESTS : Z := 4.
Definition SLEEP_ON_429 : Z := 60.
Definition RETRY_ATTEMPTS : Z := 6.
Definition USE_MONTHLY : bool := true.
Definition START_DATE : date := Date.mk 2024 1 1.
Definition END_DATE : date := Date.mk 2024 12 31.
Definition DAILY_VARS : string :=
  "weather_code,temperature_2m_max,temperature_2m_min,precipitation_sum,wind_speed_10m_max,wind_gusts_10m_max,wind_direction_10m_dominant,shortwave_radiation_sum,uv_index_max".

(** [pd.date_range(start, end, freq='MS')]: the first days of the
    months that lie in [start, end], in order.  Months are counted
    from year 0, so the first of the month of [end] is the last one. *)
Definition month_index (d : date) : Z := year d * 12 + (month d - 1).

Definition date_range_MS (start end_ : date) : list date :=
  let first := if day start =? 1 then month_index start else month_index start + 1 in
  let last := month_index end_ in
  (fun k => Date.mk (k / 12) (k mod 12 + 1) 1) <$> seqZ first (last - first + 1).

Definition months_between (start end_ : date) : list (date * date) :=
  (fun s =>
     let sdate := Date.mk (year s) (month s) 1 in
     let edate :=
       if month s =? 12 then Date.mk (year s) 12 31
       else Date.sub_days (Date.mk (year s) (month s + 1) 1) 1 in
     let edate := if Date.gtb edate end_ then end_ else edate in
     (sdate, edate)) <$> date_range_MS start end_.

(** *** The archive, the registry and the world the script acts on *)

(** One row of [airports.csv] after [set_index("iata")]. *)
Record Coords := { lat : Q; lon : Q }.

(** The query of one request (the [params] dict). *)
Record Params := {
  latitude : Q;
  longitude : Q;
  start_date : string;
  end_date : string;
  daily : string;
  timezone : string
}.

(** The decoded body [j = r.json()]: what the script looks at is the
    [daily] object, a mapping from names to arrays, in the order of
    the document. *)
Record Json := { j_daily : option (list (string * list cell)) }.

(** What [safe_get] followed by [r.json()] does: a decoded body, the
    [RetryError] raised on HTTP 429, or any other exception (another
    status, a timeout, a connection error, an undecodable body). *)
Inductive Response :=
| Body (j : Json)
| RateLimited
| RequestFailed.

(** The frame [dfw] built from one body. *)
Record Part := {
  p_time : list cell;
  p_cols : list (string * list cell);
  p_iata : string
}.

(** A row of the station's cache file. *)
Record CacheRow := {
  r_time : cell;
  r_vars : list (string * cell);
  r_iata : string
}.

Inductive Event :=
| EvRequest (p : Params)
| EvSleep (seconds : Z)
| EvWriteCache (name : string) (rows : list CacheRow)
| EvLog (row : list string).

(** The files the script touches and, as a ghost field, the events
    of the run in the order they happened. *)
Record World := {
  cache : gmap string (list CacheRow);
  logfile : option (list (list string));
  trace : list Event
}.

Definition is_request (e : Event) : bool :=
  match e with EvRequest _ => true | _ => false end.

Definition is_log (e : Event) : bool :=
  match e with EvLog _ => true | _ => false end.

Definition requests_made (t : list Event) : nat := length (filter is_request t).

Definition emit (e : Event) (w : World) : World :=
  {| cache := cache w; logfile := logfile w; trace := trace w ++ [e] |}.

(** [time.sleep(seconds)] *)
Definition sleep (seconds : Z) (w : World) : World := emit (EvSleep seconds) w.

(** [open(LOG, "a")] and one [writerow]: the file is created when absent. *)
Definition append_log (row : list string) (w : World) : World :=
  {| cache := cache w;
     logfile := Some (default [] (logfile w) ++ [row]);
     trace := trace w ++ [EvLog row] |}.

(** [df_all.to_csv(outfn, index=False)] *)
Definition write_cache (name : string) (rows : list CacheRow) (w : World) : World :=
  {| cache := <[name := rows]> (cache w);
     logfile := logfile w;
     trace := trace w ++ [EvWriteCache name rows] |}.

Definition LOG_HEADER : list string := ["iata"; "status"; "notes"].

(** Lines 58-61: the header is written when [LOG] does not exist. *)
Definition prepare_log (w : World) : World :=
  match logfile w with
  | Some _ => w
  | None => {| cache := cache w; logfile := Some [LOG_HEADER]; trace := trace w |}
  end.

(** [OUT_DIR / f"weather_{iata}.csv"] *)
Definition cache_name (iata : string) : string := "weather_" +:+ iata +:+ ".csv".

(** Lines 54-55: the pending list read from [missing_airports.txt]. *)
Definition read_missing (lines : list string) : list string :=
  (fun l => Py.upper (Py.strip l)) <$> filter (fun l => Py.truthy (Py.strip l) = true) lines.

Definition assoc (k : string) (d : list (string * list cell)) : option (list cell) :=
  (fun r => r.2.2) <$> list_find (fun kv => kv.1 = k) d.

(** Lines 113-115, [dfw[var] = j["daily"][var]] for the variables in
    turn, on a frame whose [time] column is [times] and whose other
    columns so far are [cols].  Assigning a list whose length differs
    from the frame's raises [ValueError]: [None].  A frame without rows
    is the exception: pandas gives it the index of the first non-empty
    list assigned to it, the columns it has (all empty) being filled
    with nulls. *)
Fixpoint assign_columns (vars : list (string * list cell)) (times : list cell)
    (cols : list (string * list cell)) : option (list cell * list (string * list cell)) :=
  match vars with
  | [] => Some (times, cols)
  | (var, values) :: rest =>
      if bool_decide (times = []) && negb (bool_decide (values = [])) then
        let nulls := replicate (length values) None in
        assign_columns rest nulls (((fun kv => (kv.1, nulls)) <$> cols) ++ [(var, values)])
      else if (length values =? length times)%nat then
        assign_columns rest times (cols ++ [(var, values)])
      else None
  end.

(** Lines 111-116: the frame of one body, [None] when building it
    raises.  The members of [daily] are arrays. *)
Definition build_frame (iata : string) (times : list cell)
    (d : list (string * list cell)) : option Part :=
  (fun tc => {| p_time := tc.1; p_cols := tc.2; p_iata := iata |})
    <$> assign_columns (filter (fun kv => kv.1 ≠ "time") d) times [].

Definition part_rows (p : Part) : list CacheRow :=
  imap (fun i t =>
          {| r_time := t;
             r_vars := (fun kv => (kv.1, default None (kv.2 !! i))) <$> p_cols p;
             r_iata := p_iata p |}) (p_time p).

(** [pd.concat(parts, ignore_index=True)] *)
Definition concat_parts (parts : list Part) : list CacheRow :=
  concat (part_rows <$> parts).

Inductive PeriodOutcome :=
| Fetched (dfw : Part)   (* success: [parts.append(dfw)], then [break] *)
| Malformed              (* no [daily]/[time]: [failed = True], then [break] *)
| Exhausted.             (* the [else] of the [for]: no attempt left *)

(** How the body of the station loop ends: the loop goes on with the
    next station, or an exception that no handler catches ends the
    script there. *)
Inductive Flow := Next | Uncaught.

Section Script.

(** The archive service: the answer to the request that follows
    [n] earlier ones. *)
Variable archive : nat → Params → Response.

(** The registry [ap], indexed by station code (one row per code). *)
Variable ap : gmap string Coords.

(** [pd.to_datetime(df_all["time"])] at line 133, on the [time] column
    of the concatenated frames: whether the call returns.  It raises on
    a column that holds a value it cannot read as a date, and line 133
    is outside every [try]. *)
Variable time_parses : list cell → bool.

(** [safe_get(params)] and [r.json()] *)
Definition safe_get (params : Params) (w : World) : Response * World :=
  (archive (requests_made (trace w)) params, emit (EvRequest params) w).

(** Lines 102-129: [for attempt in range(1, RETRY_ATTEMPTS+1)],
    over the attempts still to make. *)
Fixpoint retry_loop (iata : string) (params : Params) (attempts : list Z)
    (backoff : Z) (w : World) : PeriodOutcome * World :=
  match attempts with
  | [] => (Exhausted, w)
  | attempt :: rest =>
      let '(r, w1) := safe_get params w in
      match r with
      | Body j =>
          match j_daily j ≫= assoc "time" with
          | None => (Malformed, w1)
          | Some times =>
              match build_frame iata times (default [] (j_daily j)) with
              | Some dfw => (Fetched dfw, sleep SLEEP_BETWEEN_REQUESTS w1)
              | None => retry_loop iata params rest backoff (sleep (2 + attempt) w1)
              end
          end
      | RateLimited =>
          retry_loop iata params rest (backoff * 2) (sleep (SLEEP_ON_429 + backoff) w1)
      | RequestFailed =>
          retry_loop iata params rest backoff (sleep (2 + attempt) w1)
      end
  end.

Definition make_params (c : Coords) (sdate edate : date) : Params :=
  {| latitude := lat c; longitude := lon c;
     start_date := Date.isoformat sdate; end_date := Date.isoformat edate;
     daily := DAILY_VARS; timezone := "UTC" |}.

(** Lines 93-129: [for (sdate, edate) in months].  A malformed body
    breaks out of the attempts only, so the next month is fetched;
    exhausted attempts break out of the months too. *)
Fixpoint month_loop (iata : string) (c : Coords) (months : list (date * date))
    (parts : list Part) (failed : bool) (w : World) : list Part * bool * World :=
  match months with
  | [] => (parts, failed, w)
  | (sdate, edate) :: rest =>
      let '(o, w1) :=
        retry_loop iata (make_params c sdate edate) (seqZ 1 RETRY_ATTEMPTS) 1 w in
      match o with
      | Fetched dfw => month_loop iata c rest (parts ++ [dfw]) failed w1
      | Malformed => month_loop iata c rest parts true w1
      | Exhausted => (parts, true, w1)
      end
  end.

(** Lines 74-141: the body of [for iata in miss], with the way it
    ends.  The cache file holds the concatenated frames; where
    [pd.to_datetime] at line 133 returns it only changes the type of
    their [time] column, and where it raises the script ends before
    the file and the audit row are written. *)
Definition station_body (iata : string) (w : World) : Flow * World :=
  match ap !! iata with
  | None => (Next, append_log [iata; "no_coords"; "pulado"] w)
  | Some c =>
      let outfn := cache_name iata in
      match cache w !! outfn with
      | Some _ => (Next, append_log [iata; "cached"; "ok"] w)
      | None =>
          let months :=
            if USE_MONTHLY then months_between START_DATE END_DATE
            else [(START_DATE, END_DATE)] in
          let '(parts, failed, w1) := month_loop iata c months [] false w in
          if bool_decide (parts ≠ []) && negb failed then
            let df_all := concat_parts parts in
            if time_parses (r_time <$> df_all) then
              (Next, append_log [iata; "ok"; "salvo"] (write_cache outfn df_all w1))
            else (Uncaught, w1)
          else (Next, append_log [iata; "failed"; "partial_or_429"] w1)
      end
  end.

(** The files and the trace after the body, and the way it ended. *)
Definition process_station (iata : string) (w : World) : World := (station_body iata w).2.

Definition station_flow (iata : string) (w : World) : Flow := (station_body iata w).1.

(** Lines 73-141: [for iata in miss]; an uncaught exception ends it. *)
Fixpoint station_loop (miss : list string) (w : World) : Flow * World :=
  match miss with
  | [] => (Next, w)
  | iata :: rest =>
      match station_body iata w with
      | (Next, w1) => station_loop rest w1
      | (Uncaught, w1) => (Uncaught, w1)
      end
  end.

(** The script from line 57 on, for the pending list [miss]: the
    files and the trace it leaves, and the way it ended. *)
Definition resume (miss : list string) (w : World) : World :=
  (station_loop miss (prepare_log w)).2.

Definition run_flow (miss : list string) (w : World) : Flow :=
  (station_loop miss (prepare_log w)).1.

(** The audit row of a station that is skipped: the registry is
    looked at first. *)
Definition skip_row (iata : string) : list string :=
  match ap !! iata with
  | Some _ => [iata; "cached"; "ok"]
  | None => [iata; "no_coords"; "pulado"]
  end.

End Script.

(** *** Vocabulary of the statements *)

Definition STATUSES : list string := ["ok"; "cached"; "no_coords"; "failed"].

(** An audit row of station [iata]. *)
Definition station_row (iata : string) (row : list string) : Prop :=
  ∃ status notes, row = [iata; status; notes] ∧ status ∈ STATUSES.

(** The events of one station: whatever its processing does, none of
    it a log write, and then its one audit row. *)
Definition station_segment (iata : string) (seg : list Event) : Prop :=
  ∃ evs row,
    seg = evs ++ [EvLog row] ∧ Forall (fun e => is_log e = false) evs ∧ station_row iata row.

(** The rows written to the log by the events [t], in order. *)
Definition logged (t : list Event) : list (list string) :=
  omap (fun e => match e with EvLog row => Some row | _ => None end) t.

(** The requests among the events [t], in order. *)
Definition requested (t : list Event) : list Params :=
  omap (fun e => match e with EvRequest p => Some p | _ => None end) t.

(** Requests and sleeps: the only events of the retry loop. *)
Definition is_net (e : Event) : bool :=
  match e with EvRequest _ | EvSleep _ => true | _ => false end.

(** A step of the script that touches no file and only requests or
    sleeps. *)
Definition net_step (w w' : World) : Prop :=
  cache w' = cache w ∧ logfile w' = logfile w
  ∧ ∃ evs, trace w' = trace w ++ evs ∧ Forall (fun e => is_net e = true) evs.

(** What attempts that are all answered 429 leave in the trace. *)
Fixpoint backoff_trace (params : Params) (attempts : list Z) (backoff : Z) : list Event :=
  match attempts with
  | [] => []
  | _ :: rest =>
      EvRequest params :: EvSleep (SLEEP_ON_429 + backoff)
        :: backoff_trace params rest (backoff * 2)
  end.

(** The sleeps among the events [t], in order. *)
Definition sleeps (t : list Event) : list Z :=
  omap (fun e => match e with EvSleep secs => Some secs | _ => None end) t.

(** A body the script accepts: it has [daily] with a [time] array, and
    the frame can be built from the arrays of [daily]. *)
Definition well_formed (iata : string) (j : Json) : Prop :=
  ∃ times dfw,
    j_daily j ≫= assoc "time" = Some times
    ∧ build_frame iata times (default [] (j_daily j)) = Some dfw.

(** What attempts that all raise another exception leave in the trace. *)
Fixpoint linear_trace (params : Params) (attempts : list Z) : list Event :=
  match attempts with
  | [] => []
  | attempt :: rest =>
      EvRequest params :: EvSleep (2 + attempt) :: linear_trace params rest
  end.

(** The events of a month that is fetched at the first attempt. *)
Definition month_events (c : Coords) (period : date * date) : list Event :=
  [EvRequest (make_params c period.1 period.2); EvSleep SLEEP_BETWEEN_REQUESTS].

(** A calendar date of [datetime.date]: years 1 to 9999. *)
Definition valid_date (d : date) : Prop :=
  1 ≤ year d ≤ 9999 ∧ 1 ≤ month d ≤ 12 ∧ 1 ≤ day d ≤ Date.days_in_month (year d) (month d).

(** The first day of the month with index [k], the index of the first
    month that starts in a range, and the period [months_between] makes
    of a month start. *)
Definition month_start (k : Z) : date := Date.mk (k / 12) (k mod 12 + 1) 1.

Definition first_month (start : date) : Z :=
  if day start =? 1 then month_index start else month_index start + 1.

Definition period_of (end_ s : date) : date * date :=
  let sdate := Date.mk (year s) (month s) 1 in
  let edate :=
    if month s =? 12 then Date.mk (year s) 12 31
    else Date.sub_days (Date.mk (year s) (month s + 1) 1) 1 in
  let edate := if Date.gtb edate end_ then end_ else edate in
  (sdate, edate).

(** An answer that takes the [except Exception] branch: a failed
    request, or a body whose arrays do not fit one frame. *)
Definition raises_other (iata : string) (r : Response) : Prop :=
  r = RequestFailed
  ∨ ∃ j times,
      r = Body j
      ∧ j_daily j ≫= assoc "time" = Some times
      ∧ build_frame iata times (default [] (j_daily j)) = None.

End Resume.

(** ** [flights_weather_2024.py] *)

Module Join.

Definition SELECTED : list string :=
  ["BOS"; "ALB"; "JFK"; "PHL"; "ATL"; "MIA"; "ORD"; "MSP"; "IAH"; "MSY";
   "DEN"; "SLC"; "PHX"; "LAS"; "LAX"; "SFO"; "SEA"; "ANC"; "HNL"; "SJU"].

(** A row of the flight file as [read_flights] returns it: the date
    column (named [fl_date] or [flight_date]), the [origin] column and
    the remaining columns.  Tables without a date or an origin column
    raise [KeyError] before anything is written and are not rows of
    this type. *)
Record RawFlight := {
  raw_date : cell;
  raw_origin : cell;
  raw_other : list (string * cell)
}.

(** A flight row after [normalize_flight_dates_and_origin]; [line] is
    the label the row got from [read_csv] (its position in the file),
    [orig_iata] the column [main] adds ([None] until then), [other] the
    columns the script does not look at. *)
Record Flight := {
  line : nat;
  flight_date : cell;
  flight_date_parsed : option date;
  flight_date_str : cell;
  origin : string;
  orig_iata : cell;
  other : list (string * cell)
}.

(** A weather row: the non-null cells by column name. *)
Abbreviation Row := (gmap string string).

(** A weather file read with [dtype=str], and the stacked frame. *)
Record Frame := { columns : list string; rows : list Row }.

Record MergedRow := { m_flight : Flight; m_weather : option Row }.

(** The files [main] writes; [None] where a file is not written.
    ([flight_counts_by_origin.csv] is left out.) *)
Record Outputs := {
  out_merged : list MergedRow;
  out_missing_orig : list string;
  out_missing_matches : option (list MergedRow)
}.

(** [WEATHER_DIR / f"weather_{iata}.csv"], by its name *)
Definition weather_name (iata : string) : string := "weather_" +:+ iata +:+ ".csv".

(** [w[c] = value], a null value leaving the cell empty *)
Definition assign (c : string) (v : cell) (r : Row) : Row :=
  match v with Some s => <[c := s]> r | None => delete c r end.

Definition add_column (c : string) (cols : list string) : list string :=
  if bool_decide (c ∈ cols) then cols else cols ++ [c].

(** [w["iata"].astype(str).str.strip().str.upper()] on one row *)
Definition normalize_iata (r : Row) : Row :=
  <["iata" := Py.upper (Py.strip (Py.astype_str (r !! "iata")))]> r.

(** [weather_all["date_str"].astype(str)] on one row (lines 98, 129) *)
Definition date_str_as_text (r : Row) : Row :=
  <["date_str" := Py.astype_str (r !! "date_str")]> r.

(** The join keys, as pandas compares them (a null equals a null). *)
Definition weather_key (r : Row) : cell * cell := (r !! "iata", r !! "date_str").

Definition flight_key (f : Flight) : cell * cell := (Some (origin f), flight_date_str f).

(** [drop_duplicates(subset=["iata","date_str"], keep="first")] *)
Fixpoint drop_duplicates_from (seen : list (cell * cell)) (l : list Row) : list Row :=
  match l with
  | [] => []
  | r :: rest =>
      if bool_decide (weather_key r ∈ seen) then drop_duplicates_from seen rest
      else r :: drop_duplicates_from (weather_key r :: seen) rest
  end.

Definition drop_duplicates (l : list Row) : list Row := drop_duplicates_from [] l.

(** [left.merge(right, left_on=["origin","flight_date_str"],
    right_on=["iata","date_str"], how="left")]: every left row, in
    order, once per right row with its key, or once with nulls. *)
Definition merge (left : list Flight) (right : list Row) : list MergedRow :=
  left ≫= (fun f =>
    match filter (fun w => weather_key w = flight_key f) right with
    | [] => [{| m_flight := f; m_weather := None |}]
    | ms => (fun w => {| m_flight := f; m_weather := Some w |}) <$> ms
    end).

(** The cell of a merged row in a column that came from the right. *)
Definition weather_cell (m : MergedRow) (c : string) : cell := m_weather m ≫= (.!! c).

(** [merged[weather_cols].notna().any(axis=1)] on one row *)
Definition has_weather (weather_cols : list string) (m : MergedRow) : bool :=
  existsb (fun c => bool_decide (is_Some (weather_cell m c))) weather_cols.

(** [merged.loc[~merged.index.isin(merged[has_weather].index)]] *)
Definition missing_matches (weather_cols : list string) (merged : list MergedRow)
    : list MergedRow :=
  let indexed := imap (fun i m => (i, m)) merged in
  let matched := fst <$> filter (fun im => has_weather weather_cols im.2 = true) indexed in
  snd <$> filter (fun im => im.1 ∉ matched) indexed.

(** [sorted(set(SELECTED) - set(found))] *)
Definition missing_origins (selected found : list string) : list string :=
  merge_sort String.le (remove_dups (filter (fun s => s ∉ found) selected)).

(** *** Vocabulary of the statements *)

(** The merged row of flight [f] when it is joined to the first row of
    [weather] that has its key, or to none. *)
Definition first_match (weather : list Row) (f : Flight) : MergedRow :=
  {| m_flight := f;
     m_weather := head (filter (fun w => weather_key w = flight_key f) weather) |}.

Section Engine.

(** [pd.to_datetime(text, dayfirst=..., errors="coerce")] on one
    non-null text: the date, or [None] for NaT. *)
Variable to_datetime : bool → string → option date.

Definition strftime (d : option date) : cell := Date.isoformat <$> d.

(** [df["origin"].astype(str).str.strip().str.upper()] on one row *)
Definition normalize_origin (r : RawFlight) : string :=
  Py.upper (Py.strip (Py.astype_str (raw_origin r))).

(** Lines 38-57 on the row at position [i]. *)
Definition normalize_row (i : nat) (r : RawFlight) : Flight :=
  let parsed := raw_date r ≫= to_datetime true in
  {| line := i;
     flight_date := raw_date r;
     flight_date_parsed := parsed;
     flight_date_str := strftime parsed;
     origin := normalize_origin r;
     orig_iata := None;
     other := raw_other r |}.

(** Lines 38-57. *)
Definition normalize_flight_dates_and_origin (df : list RawFlight) : list Flight :=
  imap normalize_row df.

(** Lines 66-89: one weather file; [None] when it has no date-like
    column and is skipped. *)
Definition load_weather (iata name : string) (w : Frame) : option Frame :=
  let date_col :=
    if bool_decide ("time" ∈ columns w) then Some "time"
    else if bool_decide ("date" ∈ columns w) then Some "date"
    else None in
  match date_col with
  | None => None
  | Some dc =>
      let has_iata := bool_decide ("iata" ∈ columns w) in
      Some {|
        columns :=
          add_column "source_file" (add_column "iata" (add_column "date_str" (columns w)));
        rows :=
          (fun r =>
             let r := assign "date_str" (strftime (r !! dc ≫= to_datetime false)) r in
             let r := if has_iata then r else <["iata" := iata]> r in
             <["source_file" := name]> (normalize_iata r)) <$> rows w
      |}
  end.

(** Lines 62-89: the loop over the allow-list; [dir] holds the files
    of [WEATHER_DIR] by name.  Each file that exists and has a date
    column gives one entry of [found] and one frame of [rows]. *)
Definition load_all (selected_iatas : list string) (dir : gmap string Frame)
    : list (string * Frame) :=
  omap (fun iata =>
          dir !! weather_name iata ≫= (fun w =>
          (fun fr => (iata, fr)) <$> load_weather iata (weather_name iata) w))
       selected_iatas.

(** Lines 59-100. *)
Definition read_and_stack_weather (selected_iatas : list string)
    (dir : gmap string Frame) : Frame * list string :=
  let loaded := load_all selected_iatas dir in
  let found := fst <$> loaded in
  match loaded with
  | [] => ({| columns := ["iata"; "date_str"]; rows := [] |}, found)
  | _ =>
      ({| columns := remove_dups (concat ((fun x => columns x.2) <$> loaded));
          rows :=
            (fun r => normalize_iata (date_str_as_text r))
              <$> concat ((fun x => rows x.2) <$> loaded) |},
       found)
  end.

(** Line 111: [flights_sel["orig_iata"] = flights_sel["origin"]] *)
Definition add_orig_iata (f : Flight) : Flight :=
  {| line := line f; flight_date := flight_date f;
     flight_date_parsed := flight_date_parsed f;
     flight_date_str := flight_date_str f; origin := origin f;
     orig_iata := Some (origin f); other := other f |}.

(** Lines 108-111: the flights whose origin is in the allow-list, with
    the column [orig_iata] added. *)
Definition select_flights (flights_csv : list RawFlight) : list Flight :=
  add_orig_iata
    <$> filter (fun f => origin f ∈ SELECTED) (normalize_flight_dates_and_origin flights_csv).

(** Line 128: [flights_sel["flight_date_str"].astype(str)] *)
Definition date_key_as_text (f : Flight) : Flight :=
  {| line := line f; flight_date := flight_date f;
     flight_date_parsed := flight_date_parsed f;
     flight_date_str := Some (Py.astype_str (flight_date_str f));
     origin := origin f; orig_iata := orig_iata f; other := other f |}.

(** Lines 129-133: the weather rows, one per (iata, date_str). *)
Definition weather_unique (weather_all : Frame) : list Row :=
  drop_duplicates (date_str_as_text <$> rows weather_all).

(** What [main] makes of one selected flight: without any weather the
    row as it is, else the row joined to the de-duplicated table. *)
Definition join_row (weather_all : Frame) (f : Flight) : MergedRow :=
  if bool_decide (rows weather_all = []) then {| m_flight := f; m_weather := None |}
  else first_match (weather_unique weather_all) (date_key_as_text f).

(** Lines 103-157. *)
Definition main (flights_csv : list RawFlight) (dir : gmap string Frame) : Outputs :=
  let flights_sel := select_flights flights_csv in
  let '(weather_all, found) := read_and_stack_weather SELECTED dir in
  let missing := missing_origins SELECTED found in
  if bool_decide (rows weather_all = [] ∨ columns weather_all = []) then
    (* [weather_all.empty]: the flights are written as they are *)
    {| out_merged := (fun f => {| m_flight := f; m_weather := None |}) <$> flights_sel;
       out_missing_orig := missing;
       out_missing_matches := None |}
  else
    let merged := merge (date_key_as_text <$> flights_sel) (weather_unique weather_all) in
    (* the columns the merge added: those of the right frame, which
       [suffixes=("", "_weather")] renames where a flight column has
       the same name *)
    let weather_cols := columns weather_all in
    {| out_merged := merged;
       out_missing_orig := missing;
       out_missing_matches :=
         match weather_cols with
         | [] => None   (* [has_weather] is unbound at line 157 *)
         | _ => Some (missing_matches weather_cols merged)
         end |}.

(** The date column [load_weather] reads. *)
Definition date_column (w : Frame) : string :=
  if bool_decide ("time" ∈ columns w) then "time" else "date".

(** No weather row has a null date: in every weather file of the
    allow-list that is loaded (it has a [time] or a [date] column),
    every row has a date that parses. *)
Definition weather_dates_parse (dir : gmap string Frame) : Prop :=
  ∀ iata w r,
    iata ∈ SELECTED → dir !! weather_name iata = Some w →
    "time" ∈ columns w ∨ "date" ∈ columns w →
    r ∈ rows w →
    is_Some (r !! date_column w ≫= to_datetime false).

End Engine.

(** *** The header of the flight table and the matched count *)

(** The two [KeyError]s of [normalize_flight_dates_and_origin]. *)
Inductive KeyError := NoDateColumn | NoOriginColumn.

(** [df.rename(columns={old: new})] on the header *)
Definition rename (old new : string) (cols : list string) : list string :=
  (fun c => if bool_decide (c = old) then new else c) <$> cols.

(** Lines 40-55 on the header of the flight table: the error raised,
    or the columns of the normalised table. *)
Definition normalize_header (cols : list string) : KeyError + list string :=
  if bool_decide (("fl_date" ∉ cols) ∧ ("flight_date" ∉ cols)) then inl NoDateColumn
  else
    let cols :=
      if bool_decide ("flight_date" ∉ cols) then rename "fl_date" "flight_date" cols
      else cols in
    let cols := add_column "flight_date_str" (add_column "flight_date_parsed" cols) in
    if bool_decide ("origin" ∉ cols) then inl NoOriginColumn
    else
      inr (if bool_decide (("dep_time" ∈ cols) ∧ ("dep_time_raw" ∉ cols))
           then rename "dep_time" "dep_time_raw" cols else cols).

(** Lines 148-149: [int(has_weather.sum())] *)
Definition n_matched (weather_cols : list string) (merged : list MergedRow) : nat :=
  length (filter (fun m => has_weather weather_cols m = true) merged).

End Join.

(** ** [list_airports.py]: file names and column lookup *)

Module Inventory.

Definition lower_ascii (a : ascii) : ascii :=
  let n := nat_of_ascii a in
  if ((65 <=? n)%nat && (n <=? 90)%nat) then ascii_of_nat (n + 32) else a.

(** [s.lower()] (ASCII) *)
Fixpoint lower (s : string) : string :=
  match s with
  | String a s' => String (lower_ascii a) (lower s')
  | EmptyString => EmptyString
  end.

(** Lines 66-68: the station code read off a file name,
    [fname[len("weather_"):-4].upper()] when the lower-cased name starts
    with [weather_] and ends with [.csv]. *)
Definition iata_of_filename (fname : string) : option string :=
  let l := list_ascii_of_string (lower fname) in
  if bool_decide ((list_ascii_of_string "weather_") `prefix_of` l)
     && bool_decide ((list_ascii_of_string ".csv") `suffix_of` l)
  then
    let chars := list_ascii_of_string fname in
    Some (Py.upper (string_of_list_ascii (drop 8 (take (length chars - 4) chars))))
  else None.

(** [mapping = {c.lower(): c for c in cols}]: the last column of a
    lower-cased name is the one kept. *)
Definition lower_mapping (cols : list string) : gmap string string :=
  foldl (fun m c => <[lower c := c]> m) ∅ cols.

(** Lines 23-29; [candidates] in the order in which the set is
    iterated. *)
Definition find_column (cols candidates : list string) : option string :=
  head (omap (fun cand => lower_mapping cols !! cand) candidates).

End Inventory.


(** ** Sample inputs for the closed examples *)

Module Sample.

Import Resume Join.

Definition digit_value (a : ascii) : option Z :=
  let n := nat_of_ascii a in
  if (48 <=? n)%nat && (n <=? 57)%nat then Some (Z.of_nat (n - 48)) else None.

Fixpoint number_from (acc : Z) (s : list ascii) : option Z :=
  match s with
  | [] => Some acc
  | a :: rest => digit_value a ≫= (fun d => number_from (acc * 10 + d) rest)
  end.

Definition calendar_date (y m d : Z) : option date :=
  if (1 <=? m) && (m <=? 12) && (1 <=? d) && (d <=? Date.days_in_month y m)
  then Some (Date.mk y m d) else None.

(** A date parser for the two layouts of the data files, [YYYY-MM-DD]
    and [DD/MM/YYYY] (or [MM/DD/YYYY] without [dayfirst]); any other
    text is NaT.  It stands for [pd.to_datetime] in the examples. *)
Definition to_datetime (dayfirst : bool) (s : string) : option date :=
  match list_ascii_of_string s with
  | [y1; y2; y3; y4; "-"%char; m1; m2; "-"%char; d1; d2] =>
      number_from 0 [y1; y2; y3; y4] ≫= (fun y =>
      number_from 0 [m1; m2] ≫= (fun m =>
      number_from 0 [d1; d2] ≫= (fun d => calendar_date y m d)))
  | [a1; a2; "/"%char; b1; b2; "/"%char; y1; y2; y3; y4] =>
      number_from 0 [a1; a2] ≫= (fun a =>
      number_from 0 [b1; b2] ≫= (fun b =>
      number_from 0 [y1; y2; y3; y4] ≫= (fun y =>
      if dayfirst then calendar_date y b a else calendar_date y a b)))
  | _ => None
  end.

(** A registry with one station, an empty output directory with no
    log, and three behaviours of the archive. *)
Definition registry : gmap string Coords :=
  {[ "JFK" := {| lat := 40.64; lon := -73.78 |} ]}.

Definition fresh : World := {| cache := ∅; logfile := None; trace := [] |}.

Definition always_429 : nat → Params → Response := fun _ _ => RateLimited.

Definition one_day : Json :=
  {| j_daily := Some [("time", [Some "2024-01-01"]); ("temperature_2m_max", [Some "5.0"])] |}.

Definition always_ok : nat → Params → Response := fun _ _ => Body one_day.

(** The first answer is a body without [daily]; all later ones are fine. *)
Definition first_malformed : nat → Params → Response :=
  fun n _ => match n with O => Body {| j_daily := None |} | S _ => Body one_day end.

(** An output directory that already holds a file for [XXX], a station
    the registry does not know. *)
Definition stray_cache : World :=
  {| cache := {[ cache_name "XXX" := [] ]}; logfile := None; trace := [] |}.

(** One weather file, for JFK: two rows for 2024-02-01 and a row whose
    [time] cell is empty. *)
Definition jfk_weather : Frame :=
  {| columns := ["time"; "temperature_2m_max"; "iata"];
     rows := [ {[ "time" := "2024-02-01"; "temperature_2m_max" := "5.0"; "iata" := "JFK" ]};
               {[ "time" := "2024-02-01"; "temperature_2m_max" := "7.0"; "iata" := "JFK" ]};
               {[ "temperature_2m_max" := "9.0"; "iata" := "JFK" ]} ] |}.

Definition weather_dir : gmap string Frame := {[ "weather_JFK.csv" := jfk_weather ]}.

(** Four flights: a JFK flight of 1 February, a JFK flight and an
    [XXX] flight whose dates do not parse, and a BOS flight. *)
Definition flights : list RawFlight :=
  [ {| raw_date := Some "01/02/2024"; raw_origin := Some " jfk"; raw_other := [] |};
    {| raw_date := Some "not a date"; raw_origin := Some "JFK"; raw_other := [] |};
    {| raw_date := Some "02/02/2024"; raw_origin := Some "BOS"; raw_other := [] |};
    {| raw_date := Some "not a date"; raw_origin := Some "XXX"; raw_other := [] |} ].

(** An archive whose every request fails, and one that answers 429
    to the first two requests and serves every later one. *)
Definition always_failing : nat → Params → Response := fun _ _ => RequestFailed.

Definition limited_twice : nat → Params → Response :=
  fun n _ => if (n <? 2)%nat then RateLimited else Body one_day.

(** [pd.to_datetime] on a [time] column returns when every value of
    the column that is not null reads as a date. *)
Definition time_parses (col : list cell) : bool :=
  forallb (fun t => match t with
                    | Some s => bool_decide (is_Some (to_datetime false s))
                    | None => true
                    end) col.



(** A body with an empty [time] array and one value of a variable. *)
Definition empty_time : Json :=
  {| j_daily := Some [("time", []); ("temperature_2m_max", [Some "5.0"])] |}.

(** A weather directory in which every row has a date. *)
Definition dated_weather_dir : gmap string Frame :=
  {[ "weather_JFK.csv" :=
       {| columns := ["time"; "temperature_2m_max"];
          rows := [ {[ "time" := "2024-02-01"; "temperature_2m_max" := "5.0" ]};
                    {[ "time" := "2024-02-02"; "temperature_2m_max" := "7.0" ]} ] |} ]}.

End Sample.

(** * Properties of the fetch pipeline *)

Import Resume.

(** ** The month partition *)

Lemma gtb_irrefl (d : date) : Date.gtb d d = false.
Proof.
  unfold Date.gtb. rewrite !Z.ltb_irrefl, !Z.eqb_refl. reflexivity.
Qed.

(** No period of [months_between] ends after the global end date. *)
Lemma months_between_within (start end_ : date) (p : date * date) :
  p ∈ months_between start end_ → Date.gtb p.2 end_ = false.
Proof.
  unfold months_between. intros Hp.
  apply list_elem_of_fmap in Hp as (s & -> & _). simpl.
  match goal with |- Date.gtb (if ?b then _ else ?e) _ = _ => destruct b eqn:Hb end.
  - apply gtb_irrefl.
  - exact Hb.
Qed.

Lemma months_2024 :
  months_between START_DATE END_DATE =
  (fun m => (Date.mk 2024 m 1, Date.mk 2024 m (Date.days_in_month 2024 m))) <$> seqZ 1 12.
Proof. vm_compute. reflexivity. Qed.

(** C3: [months_between(2024-01-01, 2024-12-31)] is the twelve months
    of 2024 in order, the i-th from day 1 of month i to that month's
    last calendar day; February ends on the 29th, and no period ends
    after 2024-12-31. *)
Theorem C3_months_of_2024 :
  let periods := months_between (Date.mk 2024 1 1) (Date.mk 2024 12 31) in
  length periods = 12%nat
  ∧ periods
    = (fun m => (Date.mk 2024 m 1, Date.mk 2024 m (Date.days_in_month 2024 m))) <$> seqZ 1 12
  ∧ (Date.days_in_month 2024 <$> seqZ 1 12) = [31; 29; 31; 30; 31; 30; 31; 31; 30; 31; 30; 31]
  ∧ periods !! 1%nat = Some (Date.mk 2024 2 1, Date.mk 2024 2 29)
  ∧ Forall (fun p => Date.gtb p.2 (Date.mk 2024 12 31) = false) periods.
Proof.
  intros periods. subst periods.
  change (Date.mk 2024 1 1) with START_DATE. change (Date.mk 2024 12 31) with END_DATE.
  split_and!.
  - rewrite months_2024. reflexivity.
  - apply months_2024.
  - reflexivity.
  - rewrite months_2024. reflexivity.
  - apply Forall_forall. intros p Hp. exact (months_between_within _ _ p Hp).
Qed.

(** ** The retry loop and the month loop *)

Section Fetch.

Variable archive : nat → Params → Response.
Variable ap : gmap string Coords.
Variable time_parses : list cell → bool.

Lemma net_step_refl w : net_step w w.
Proof.
  repeat split. exists []. split; [by rewrite app_nil_r | constructor].
Qed.

Lemma net_step_trans w1 w2 w3 : net_step w1 w2 → net_step w2 w3 → net_step w1 w3.
Proof.
  intros (Hc1 & Hl1 & evs1 & Ht1 & Hn1) (Hc2 & Hl2 & evs2 & Ht2 & Hn2).
  repeat split; [congruence | congruence |].
  exists (evs1 ++ evs2). split.
  - rewrite Ht2, Ht1, app_assoc. reflexivity.
  - apply Forall_app. split; assumption.
Qed.

Lemma net_step_emit e w : is_net e = true → net_step w (emit e w).
Proof.
  intros He. repeat split. exists [e]. split; [reflexivity | by constructor].
Qed.

Lemma retry_loop_net iata params attempts backoff w :
  net_step w (retry_loop archive iata params attempts backoff w).2.
Proof.
  revert backoff w. induction attempts as [|attempt rest IH]; intros backoff w; simpl.
  - apply net_step_refl.
  - assert (Hreq : net_step w (emit (EvRequest params) w)) by by apply net_step_emit.
    destruct (archive _ params) as [j| |].
    + destruct (j_daily j ≫= assoc "time") as [times|]; [|exact Hreq].
      destruct (build_frame _ _ _).
      * simpl. eapply net_step_trans; [exact Hreq|]. by apply net_step_emit.
      * eapply net_step_trans; [|apply IH].
        eapply net_step_trans; [exact Hreq|]. by apply net_step_emit.
    + eapply net_step_trans; [|apply IH].
      eapply net_step_trans; [exact Hreq|]. by apply net_step_emit.
    + eapply net_step_trans; [|apply IH].
      eapply net_step_trans; [exact Hreq|]. by apply net_step_emit.
Qed.

Lemma month_loop_cons iata c sdate edate rest parts failed w :
  month_loop archive iata c ((sdate, edate) :: rest) parts failed w
  = let '(o, w1) :=
      retry_loop archive iata (make_params c sdate edate) (seqZ 1 RETRY_ATTEMPTS) 1 w in
    match o with
    | Fetched dfw => month_loop archive iata c rest (parts ++ [dfw]) failed w1
    | Malformed => month_loop archive iata c rest parts true w1
    | Exhausted => (parts, true, w1)
    end.
Proof. reflexivity. Qed.

Lemma month_loop_net iata c months parts failed w :
  net_step w (month_loop archive iata c months parts failed w).2.
Proof.
  revert parts failed w. induction months as [|[sdate edate] rest IH]; intros parts failed w.
  - apply net_step_refl.
  - rewrite month_loop_cons.
    pose proof (retry_loop_net iata (make_params c sdate edate) (seqZ 1 RETRY_ATTEMPTS) 1 w) as Hr.
    destruct (retry_loop _ _ _ _ _ _) as [o w1]. simpl in Hr.
    destruct o;
      [eapply net_step_trans; [exact Hr | apply IH]
      | eapply net_step_trans; [exact Hr | apply IH]
      | exact Hr].
Qed.

(** Answered 429 every time, the retry loop uses up its attempts. *)
Lemma retry_loop_rate_limited iata params attempts backoff w :
  (∀ n, archive n params = RateLimited) →
  retry_loop archive iata params attempts backoff w
  = (Exhausted,
     {| cache := cache w; logfile := logfile w;
        trace := trace w ++ backoff_trace params attempts backoff |}).
Proof.
  intros Hrl. revert backoff w.
  induction attempts as [|attempt rest IH]; intros backoff w; simpl.
  - rewrite app_nil_r. by destruct w.
  - rewrite Hrl, IH. simpl. rewrite <- !app_assoc. reflexivity.
Qed.


(** ** One station *)

Lemma station_body_unregistered iata w :
  ap !! iata = None →
  station_body archive ap time_parses iata w
  = (Next, append_log [iata; "no_coords"; "pulado"] w).
Proof. intros H. unfold station_body. by rewrite H. Qed.

Lemma station_body_cached iata w :
  is_Some (ap !! iata) → is_Some (cache w !! cache_name iata) →
  station_body archive ap time_parses iata w = (Next, append_log [iata; "cached"; "ok"] w).
Proof. intros [c Hc] [r Hr]. unfold station_body. by rewrite Hc, Hr. Qed.

Lemma station_body_fetch iata c w :
  ap !! iata = Some c → cache w !! cache_name iata = None →
  station_body archive ap time_parses iata w
  = let '(parts, failed, w1) :=
      month_loop archive iata c (months_between START_DATE END_DATE) [] false w in
    if bool_decide (parts ≠ []) && negb failed then
      if time_parses (r_time <$> concat_parts parts) then
        (Next, append_log [iata; "ok"; "salvo"]
                 (write_cache (cache_name iata) (concat_parts parts) w1))
      else (Uncaught, w1)
    else (Next, append_log [iata; "failed"; "partial_or_429"] w1).
Proof. intros Hc Hr. unfold station_body. by rewrite Hc, Hr. Qed.

Lemma process_station_unregistered iata w :
  ap !! iata = None →
  process_station archive ap time_parses iata w = append_log [iata; "no_coords"; "pulado"] w.
Proof. intros H. unfold process_station. by rewrite station_body_unregistered. Qed.

Lemma process_station_cached iata w :
  is_Some (ap !! iata) → is_Some (cache w !! cache_name iata) →
  process_station archive ap time_parses iata w = append_log [iata; "cached"; "ok"] w.
Proof. intros Hc Hr. unfold process_station. by rewrite station_body_cached. Qed.

Lemma process_station_fetch iata c w :
  ap !! iata = Some c → cache w !! cache_name iata = None →
  process_station archive ap time_parses iata w
  = let '(parts, failed, w1) :=
      month_loop archive iata c (months_between START_DATE END_DATE) [] false w in
    if bool_decide (parts ≠ []) && negb failed then
      if time_parses (r_time <$> concat_parts parts) then
        append_log [iata; "ok"; "salvo"] (write_cache (cache_name iata) (concat_parts parts) w1)
      else w1
    else append_log [iata; "failed"; "partial_or_429"] w1.
Proof.
  intros Hc Hr. unfold process_station. rewrite (station_body_fetch iata c) by done.
  destruct (month_loop _ _ _ _ _ _ _) as [[parts failed] w1].
  destruct (bool_decide (parts ≠ []) && negb failed); [|done].
  by destruct (time_parses _).
Qed.

Lemma skip_branches_go_on iata w :
  ap !! iata = None ∨ is_Some (cache w !! cache_name iata) →
  station_flow archive ap time_parses iata w = Next.
Proof.
  intros Hskip. unfold station_flow. destruct (ap !! iata) as [c|] eqn:Hc.
  - destruct Hskip as [?|Hcached]; [done|].
    by rewrite station_body_cached by (rewrite ?Hc; eauto).
  - by rewrite station_body_unregistered.
Qed.

Lemma is_net_not_log e : is_net e = true → is_log e = false.
Proof. by destruct e. Qed.

Lemma station_row_intro iata status notes :
  status ∈ STATUSES → station_row iata [iata; status; notes].
Proof. intros H. by exists status, notes. Qed.

Ltac status_in := unfold STATUSES; rewrite !elem_of_cons; tauto.

(** What the body of the loop does for one station.  When it goes on
    to the next station: some events that write no log row, then
    exactly one audit row.  When the date conversion raises: requests
    and sleeps only, no file written and no audit row; the station is
    then a registered one without cache file. *)
Lemma station_body_effect iata w :
  match station_body archive ap time_parses iata w with
  | (Next, w') =>
      ∃ evs row,
        trace w' = trace w ++ evs ++ [EvLog row]
        ∧ Forall (fun e => is_log e = false) evs
        ∧ station_row iata row
        ∧ logfile w' = Some (default [] (logfile w) ++ [row])
  | (Uncaught, w') =>
      net_step w w' ∧ is_Some (ap !! iata) ∧ cache w !! cache_name iata = None
  end.
Proof.
  destruct (ap !! iata) as [c|] eqn:Hc.
  2: { rewrite station_body_unregistered by done.
       exists [], [iata; "no_coords"; "pulado"]. simpl.
       split_and!; [done | constructor | apply station_row_intro; status_in | done]. }
  destruct (cache w !! cache_name iata) as [r|] eqn:Hr.
  { rewrite station_body_cached by (rewrite ?Hc, ?Hr; eauto).
    exists [], [iata; "cached"; "ok"]. simpl.
    split_and!; [done | constructor | apply station_row_intro; status_in | done]. }
  rewrite (station_body_fetch iata c) by done.
  pose proof (month_loop_net iata c (months_between START_DATE END_DATE) [] false w) as Hn.
  destruct (month_loop _ _ _ _ _ _ _) as [[parts failed] w1]. simpl in Hn.
  destruct (bool_decide (parts ≠ []) && negb failed).
  - destruct (time_parses _); [|by eauto].
    destruct Hn as (Hcache & Hlog & evs & Htr & Hnet).
    exists (evs ++ [EvWriteCache (cache_name iata) (concat_parts parts)]), [iata; "ok"; "salvo"].
    simpl. split_and!.
    + rewrite Htr, <- !app_assoc. reflexivity.
    + apply Forall_app. split; [|by repeat constructor].
      eapply Forall_impl; [exact Hnet | apply is_net_not_log].
    + apply station_row_intro; status_in.
    + by rewrite Hlog.
  - destruct Hn as (Hcache & Hlog & evs & Htr & Hnet).
    exists evs, [iata; "failed"; "partial_or_429"]. simpl. split_and!.
    + rewrite Htr, <- !app_assoc. reflexivity.
    + eapply Forall_impl; [exact Hnet | apply is_net_not_log].
    + apply station_row_intro; status_in.
    + by rewrite Hlog.
Qed.

Lemma requests_made_app t evs :
  requests_made (t ++ evs) = (requests_made t + requests_made evs)%nat.
Proof. unfold requests_made. by rewrite filter_app, length_app. Qed.

Lemma months_2024_first :
  ∃ rest, months_between START_DATE END_DATE
          = (Date.mk 2024 1 1, Date.mk 2024 1 31) :: rest.
Proof. eexists. vm_compute. reflexivity. Qed.

(** C2: a registered station without cache file whose requests are all
    answered 429 is asked for exactly six times, all for the first
    period (January 2024), with the cool-down growing 61, 62, 64, 68,
    76, 92 seconds; then a [failed] row is appended for it and no
    cache file is written. *)
Theorem C2_retry_budget iata c w :
  ap !! iata = Some c →
  cache w !! cache_name iata = None →
  (∀ n sdate edate, archive n (make_params c sdate edate) = RateLimited) →
  let first := make_params c (Date.mk 2024 1 1) (Date.mk 2024 1 31) in
  let w' := process_station archive ap time_parses iata w in
  trace w'
  = trace w ++ [EvRequest first; EvSleep 61; EvRequest first; EvSleep 62;
                EvRequest first; EvSleep 64; EvRequest first; EvSleep 68;
                EvRequest first; EvSleep 76; EvRequest first; EvSleep 92;
                EvLog [iata; "failed"; "partial_or_429"]]
  ∧ requests_made (trace w') = (requests_made (trace w) + 6)%nat
  ∧ logfile w' = Some (default [] (logfile w) ++ [[iata; "failed"; "partial_or_429"]])
  ∧ cache w' = cache w.
Proof.
  intros Hc Hr Hrl first w'. subst w'.
  rewrite (process_station_fetch iata c) by done.
  destruct months_2024_first as [rest ->].
  rewrite month_loop_cons, retry_loop_rate_limited by (intros n; apply Hrl).
  change (seqZ 1 RETRY_ATTEMPTS) with [1; 2; 3; 4; 5; 6]. simpl.
  split_and!.
  - rewrite <- app_assoc. reflexivity.
  - rewrite <- app_assoc, requests_made_app. reflexivity.
  - reflexivity.
  - reflexivity.
Qed.

(** ** The station loop and the audit log *)

Lemma logged_app a b : logged (a ++ b) = logged a ++ logged b.
Proof. unfold logged. apply omap_app. Qed.

Lemma logged_quiet evs : Forall (fun e => is_log e = false) evs → logged evs = [].
Proof.
  induction 1 as [|e evs He _ IH]; [done|].
  destruct e; try discriminate; exact IH.
Qed.



Lemma station_loop_cons iata miss w :
  station_loop archive ap time_parses (iata :: miss) w
  = match station_body archive ap time_parses iata w with
    | (Next, w1) => station_loop archive ap time_parses miss w1
    | (Uncaught, w1) => (Uncaught, w1)
    end.
Proof. reflexivity. Qed.

(** The loop leaves one segment per station it gets through, in the
    order of the list, and the log grows by exactly the rows of the
    segments.  It gets through the whole list unless the date
    conversion raises for a station: then that station leaves requests
    and sleeps only, and neither it nor any later station has a row. *)
Lemma station_loop_segments miss w old :
  logfile w = Some old →
  ∃ processed segs tail,
    trace (station_loop archive ap time_parses miss w).2 = trace w ++ concat segs ++ tail
    ∧ Forall2 station_segment processed segs
    ∧ logfile (station_loop archive ap time_parses miss w).2
      = Some (old ++ logged (concat segs))
    ∧ match (station_loop archive ap time_parses miss w).1 with
      | Next => processed = miss ∧ tail = []
      | Uncaught =>
          ∃ iata rest,
            miss = processed ++ iata :: rest
            ∧ Forall (fun e => is_net e = true) tail
            ∧ is_Some (ap !! iata)
      end.
Proof.
  revert w old. induction miss as [|iata miss IH]; intros w old Hold.
  - exists [], [], []. simpl. rewrite !app_nil_r. by split_and!.
  - rewrite station_loop_cons.
    pose proof (station_body_effect iata w) as Heff.
    destruct (station_body archive ap time_parses iata w) as [[|] w1].
    + destruct Heff as (evs & row & Htr & Hq & Hrow & Hlog).
      rewrite Hold in Hlog. simpl in Hlog.
      destruct (IH _ _ Hlog) as (processed & segs & tail & Htr' & Hsegs & Hlog' & Hflow).
      exists (iata :: processed), ((evs ++ [EvLog row]) :: segs), tail. split_and!.
      * rewrite Htr', Htr. simpl. rewrite <- !app_assoc. reflexivity.
      * constructor; [by exists evs, row | done].
      * rewrite Hlog'. simpl. rewrite !logged_app, (logged_quiet evs) by done.
        simpl. rewrite <- !app_assoc. reflexivity.
      * destruct ((station_loop archive ap time_parses miss w1).1).
        -- destruct Hflow as [-> ->]. done.
        -- destruct Hflow as (s & rest & -> & Hnet & Hreg). by exists s, rest.
    + destruct Heff as ((_ & Hlog & evs & Htr & Hnet) & Hreg & _).
      exists [], [], evs. simpl. split_and!.
      * exact Htr.
      * constructor.
      * by rewrite Hlog, Hold, app_nil_r.
      * by exists iata, miss.
Qed.



Lemma prepare_log_spec w :
  logfile (prepare_log w)
  = Some (match logfile w with Some old => old | None => [LOG_HEADER] end)
  ∧ trace (prepare_log w) = trace w
  ∧ cache (prepare_log w) = cache w.
Proof. unfold prepare_log. destruct (logfile w) eqn:E; simpl; auto. Qed.



(** ** A period that fails *)

(** Attempts that run out end the month loop at once. *)
Lemma exhausted_period_stops iata c sdate edate rest parts failed w w1 :
  retry_loop archive iata (make_params c sdate edate) (seqZ 1 RETRY_ATTEMPTS) 1 w
  = (Exhausted, w1) →
  month_loop archive iata c ((sdate, edate) :: rest) parts failed w = (parts, true, w1).
Proof. intros H. by rewrite month_loop_cons, H. Qed.

(** A malformed body does not: the loop goes on with the next month,
    only remembering the failure. *)
Lemma malformed_period_continues iata c sdate edate rest parts failed w w1 :
  retry_loop archive iata (make_params c sdate edate) (seqZ 1 RETRY_ATTEMPTS) 1 w
  = (Malformed, w1) →
  month_loop archive iata c ((sdate, edate) :: rest) parts failed w
  = month_loop archive iata c rest parts true w1.
Proof. intros H. by rewrite month_loop_cons, H. Qed.

Lemma month_loop_failed_sticky iata c months parts w :
  (month_loop archive iata c months parts true w).1.2 = true.
Proof.
  revert parts w. induction months as [|[sdate edate] rest IH]; intros parts w; [done|].
  rewrite month_loop_cons. destruct (retry_loop _ _ _ _ _ _) as [[dfw| |] w1]; [apply IH | apply IH | done].
Qed.

(** Whatever made it fail, a station whose month loop reports a
    failure is logged [failed] and gets no cache file. *)
Lemma failed_station_writes_nothing iata c w parts w1 :
  ap !! iata = Some c → cache w !! cache_name iata = None →
  month_loop archive iata c (months_between START_DATE END_DATE) [] false w
  = (parts, true, w1) →
  cache (process_station archive ap time_parses iata w) = cache w
  ∧ logfile (process_station archive ap time_parses iata w)
    = Some (default [] (logfile w) ++ [[iata; "failed"; "partial_or_429"]]).
Proof.
  intros Hc Hr Hm. rewrite (process_station_fetch iata c) by done.
  pose proof (month_loop_net iata c (months_between START_DATE END_DATE) [] false w) as Hn.
  rewrite Hm in Hn |- *. destruct Hn as (Hcache & Hlog & _).
  change ((parts, true, w1).2) with w1 in Hcache, Hlog.
  rewrite andb_false_r. clear Hm. unfold append_log. cbn [cache logfile].
  split; [exact Hcache | rewrite Hlog; reflexivity].
Qed.

(** ** The order of the two skip checks *)

Lemma log_grows (l : option (list (list string))) row :
  l ≠ Some (default [] l ++ [row]).
Proof.
  destruct l as [l|]; [|done]. simpl. intros H. injection H as H.
  apply (f_equal length) in H. rewrite length_app in H. simpl in H. lia.
Qed.

Lemma log_row_inj (l : list (list string)) r1 r2 :
  Some (l ++ [r1]) = Some (l ++ [r2]) → r1 = r2.
Proof. intros H. injection H as H. apply app_inv_head in H. by injection H. Qed.

(** C7 (amended): the registry is consulted first.  The audit row of a
    station is [no_coords] exactly when the registry does not know it,
    whether or not its cache file exists, and [cached] exactly when the
    registry knows it and its cache file exists.  Neither skip ends the
    run, and a station that does not end it has one row. *)
Theorem C7_registry_checked_before_cache iata w :
  let w' := process_station archive ap time_parses iata w in
  (logfile w' = Some (default [] (logfile w) ++ [[iata; "no_coords"; "pulado"]])
   ↔ ap !! iata = None)
  ∧ (logfile w' = Some (default [] (logfile w) ++ [[iata; "cached"; "ok"]])
     ↔ is_Some (ap !! iata) ∧ is_Some (cache w !! cache_name iata))
  ∧ (ap !! iata = None ∨ is_Some (cache w !! cache_name iata) →
     station_flow archive ap time_parses iata w = Next)
  ∧ (station_flow archive ap time_parses iata w = Next →
     ∃ row,
       logfile w' = Some (default [] (logfile w) ++ [row])
       ∧ (row = [iata; "no_coords"; "pulado"] ↔ ap !! iata = None)
       ∧ (row = [iata; "cached"; "ok"]
          ↔ is_Some (ap !! iata) ∧ is_Some (cache w !! cache_name iata))).
Proof.
  intros w'. subst w'. unfold station_flow, process_station.
  destruct (ap !! iata) as [c|] eqn:Hc.
  2: { rewrite station_body_unregistered by done. cbn [fst snd append_log logfile].
       split_and!.
       - done.
       - split; [intros H; apply log_row_inj in H; discriminate | by intros [[? ?] _]].
       - done.
       - intros _. eexists. split; [reflexivity|]. split; [done|].
         split; [discriminate | by intros [[? ?] _]]. }
  destruct (cache w !! cache_name iata) as [r|] eqn:Hr.
  { rewrite station_body_cached by (rewrite ?Hc, ?Hr; eauto). cbn [fst snd append_log logfile].
    split_and!.
    - split; [intros H; apply log_row_inj in H; discriminate | done].
    - split; [eauto | done].
    - done.
    - intros _. eexists. split; [reflexivity|]. split; [split; discriminate|].
      split; [eauto | done]. }
  rewrite (station_body_fetch iata c) by done.
  pose proof (month_loop_net iata c (months_between START_DATE END_DATE) [] false w) as Hn.
  destruct (month_loop _ _ _ _ _ _ _) as [[parts failed] w1].
  destruct Hn as (_ & Hlog & _). cbn [snd] in Hlog.
  assert (Hskip : ¬ (None = Some c ∨ is_Some (@None (list CacheRow)))).
  { intros [?|[? ?]]; discriminate. }
  destruct (bool_decide (parts ≠ []) && negb failed); [destruct (time_parses _)|];
    cbn [fst snd append_log write_cache logfile]; rewrite Hlog.
  - split_and!.
    + split; [intros H; apply log_row_inj in H; discriminate | discriminate].
    + split; [intros H; apply log_row_inj in H; discriminate | by intros [_ [? ?]]].
    + done.
    + intros _. eexists. split; [reflexivity|].
      split; [split; discriminate | split; [discriminate | by intros [_ [? ?]]]].
  - split_and!.
    + split; [intros H; by apply log_grows in H | discriminate].
    + split; [intros H; by apply log_grows in H | by intros [_ [? ?]]].
    + intros [?|[? ?]]; discriminate.
    + discriminate.
  - split_and!.
    + split; [intros H; apply log_row_inj in H; discriminate | discriminate].
    + split; [intros H; apply log_row_inj in H; discriminate | by intros [_ [? ?]]].
    + done.
    + intros _. eexists. split; [reflexivity|].
      split; [split; discriminate | split; [discriminate | by intros [_ [? ?]]]].
Qed.

(** ** Running again over a populated cache *)

(** ** Running again over a populated cache *)

Lemma append_length (a x : string) :
  String.length (a +:+ x) = (String.length a + String.length x)%nat.
Proof.
  induction a as [|ch a IH]; [reflexivity|].
  change (String ch a +:+ x) with (String ch (a +:+ x)). simpl. by rewrite IH.
Qed.

Lemma append_inj_r (a b x : string) : a +:+ x = b +:+ x → a = b.
Proof.
  revert b. induction a as [|ch a IH]; intros [|ch' b] H.
  - reflexivity.
  - apply (f_equal String.length) in H. rewrite !append_length in H. simpl in H. lia.
  - apply (f_equal String.length) in H. rewrite !append_length in H. simpl in H. lia.
  - change (String ch (a +:+ x) = String ch' (b +:+ x)) in H.
    injection H as -> H. f_equal. by apply IH.
Qed.

Lemma cache_name_inj a b : cache_name a = cache_name b → a = b.
Proof.
  unfold cache_name. intros H. apply (inj (String.app "weather_")) in H.
  by apply append_inj_r in H.
Qed.

(** Over stations that are each unknown to the registry or cached, the
    loop only writes skip rows and never stops. *)
Lemma station_loop_skips miss w old :
  logfile w = Some old →
  (∀ iata, iata ∈ miss → ap !! iata = None ∨ is_Some (cache w !! cache_name iata)) →
  station_loop archive ap time_parses miss w
  = (Next,
     {| cache := cache w;
        logfile := Some (old ++ (skip_row ap <$> miss));
        trace := trace w ++ ((fun iata => EvLog (skip_row ap iata)) <$> miss) |}).
Proof.
  revert w old. induction miss as [|iata miss IH]; intros w old Hold Hall.
  - simpl. rewrite !app_nil_r, <- Hold. by destruct w.
  - rewrite station_loop_cons.
    assert (Hbody : station_body archive ap time_parses iata w
                    = (Next, append_log (skip_row ap iata) w)).
    { unfold skip_row. destruct (ap !! iata) as [c|] eqn:Hc.
      - destruct (Hall iata ltac:(apply elem_of_cons; by left)) as [Hn|Hcached];
          [congruence|].
        apply station_body_cached; [rewrite Hc; eauto | done].
      - by apply station_body_unregistered. }
    rewrite Hbody. rewrite (IH _ (old ++ [skip_row ap iata])).
    + simpl. rewrite <- !app_assoc. reflexivity.
    + simpl. by rewrite Hold.
    + intros s Hs. simpl. apply Hall. apply elem_of_cons. by right.
Qed.

End Fetch.

Section Rerun.

Variables first_archive second_archive : nat → Params → Response.
Variable ap : gmap string Coords.
Variable time_parses : list cell → bool.

(** C5 (amended): when after the first invocation every pending
    station has a cache file, a second invocation with the same pending
    list makes no request at all and is not stopped: its trace grows by
    one audit row per pending station and nothing else, the log by the
    same rows, and the cache is untouched.  The row of a station is
    [cached] when the registry knows the station and [no_coords] when it
    does not: the registry is looked at before the cache file. *)
Theorem C5_second_run_makes_no_request miss w0 :
  let w1 := resume first_archive ap time_parses miss w0 in
  let w2 := resume second_archive ap time_parses miss w1 in
  (∀ iata, iata ∈ miss → is_Some (cache w1 !! cache_name iata)) →
  trace w2 = trace w1 ++ ((fun iata => EvLog (skip_row ap iata)) <$> miss)
  ∧ requested (trace w2) = requested (trace w1)
  ∧ requests_made (trace w2) = requests_made (trace w1)
  ∧ (∃ old, logfile w1 = Some old
            ∧ logfile w2 = Some (old ++ (skip_row ap <$> miss)))
  ∧ cache w2 = cache w1
  ∧ run_flow second_archive ap time_parses miss w1 = Next
  ∧ (∀ iata,
       (skip_row ap iata = [iata; "cached"; "ok"] ↔ is_Some (ap !! iata))
       ∧ (skip_row ap iata = [iata; "no_coords"; "pulado"] ↔ ap !! iata = None)).
Proof.
  intros w1 w2 Hafter.
  assert (Hold : ∃ old, logfile w1 = Some old).
  { destruct (prepare_log_spec w0) as (Hp & _ & _).
    destruct (station_loop_segments first_archive ap time_parses miss _ _ Hp)
      as (processed & segs & tail & _ & _ & Hlog & _).
    eexists. exact Hlog. }
  destruct Hold as (old & Hold).
  assert (Hsame : prepare_log w1 = w1) by (unfold prepare_log; by rewrite Hold).
  assert (Hall : ∀ iata, iata ∈ miss →
                 ap !! iata = None ∨ is_Some (cache w1 !! cache_name iata)).
  { intros iata Hin. right. by apply Hafter. }
  pose proof (station_loop_skips second_archive ap time_parses miss w1 old Hold Hall) as Hrun.
  assert (Hw2 : w2 = {| cache := cache w1;
                        logfile := Some (old ++ (skip_row ap <$> miss));
                        trace := trace w1 ++ ((fun iata => EvLog (skip_row ap iata)) <$> miss) |}).
  { subst w2. unfold resume at 1. by rewrite Hsame, Hrun. }
  assert (Hreq : ∀ l : list string,
            requested ((fun iata => EvLog (skip_row ap iata)) <$> l) = []
            ∧ requests_made ((fun iata => EvLog (skip_row ap iata)) <$> l) = 0%nat).
  { induction l as [|x l [IH1 IH2]]; [done|]. split; [exact IH1 | exact IH2]. }
  rewrite Hw2. cbn [cache logfile trace]. split_and!.
  - reflexivity.
  - unfold requested. rewrite omap_app. fold (requested (trace w1)).
    fold (requested ((fun iata => EvLog (skip_row ap iata)) <$> miss)).
    rewrite (proj1 (Hreq miss)). by rewrite app_nil_r.
  - rewrite requests_made_app, (proj2 (Hreq miss)). lia.
  - exists old. by split.
  - reflexivity.
  - unfold run_flow. by rewrite Hsame, Hrun.
  - intros iata. unfold skip_row. destruct (ap !! iata) as [c|].
    + split; [split; eauto | split; discriminate].
    + split; [split; [discriminate | by intros [? ?]] | done].
Qed.

End Rerun.

(** * Properties of the join engine *)

Import Join.

(** ** De-duplication and the left merge *)

(** Under each key the de-duplicated table keeps the first row of the
    stacked table and no other. *)
Lemma filter_drop_duplicates_from seen l k :
  filter (fun r => weather_key r = k) (drop_duplicates_from seen l)
  = if bool_decide (k ∈ seen) then []
    else take 1 (filter (fun r => weather_key r = k) l).
Proof.
  revert seen. induction l as [|r rest IH]; intros seen; simpl.
  - by case_bool_decide.
  - case_bool_decide as Hseen.
    + rewrite IH. case_bool_decide as Hk; [done|].
      rewrite (filter_cons_False _ r); [done|]. intros <-. contradiction.
    + destruct (decide (weather_key r = k)) as [<-|Hne].
      * rewrite !filter_cons_True by done. rewrite IH.
        rewrite bool_decide_true by (apply elem_of_cons; by left).
        by rewrite bool_decide_false.
      * rewrite !filter_cons_False by done. rewrite IH.
        case_bool_decide as H1; case_bool_decide as H2; try done.
        -- apply elem_of_cons in H1 as [->|]; done.
        -- exfalso. apply H1, elem_of_cons. by right.
Qed.

Lemma filter_drop_duplicates l k :
  filter (fun r => weather_key r = k) (drop_duplicates l)
  = take 1 (filter (fun r => weather_key r = k) l).
Proof.
  unfold drop_duplicates. rewrite filter_drop_duplicates_from.
  rewrite bool_decide_false; [done | apply not_elem_of_nil].
Qed.

Lemma elem_of_concat {A} (x : A) (ls : list (list A)) :
  x ∈ concat ls ↔ ∃ l, x ∈ l ∧ l ∈ ls.
Proof.
  induction ls as [|l ls IH]; simpl.
  - split; [intros H; by apply elem_of_nil in H | intros (l & _ & H); by apply elem_of_nil in H].
  - rewrite elem_of_app, IH. split.
    + intros [H|(l' & H1 & H2)].
      * exists l. split; [done | apply elem_of_cons; by left].
      * exists l'. split; [done | apply elem_of_cons; by right].
    + intros (l' & H1 & H2). apply elem_of_cons in H2 as [->|H2]; [by left|].
      right. by exists l'.
Qed.

Lemma filter_ext_in {A} (P Q : A → Prop)
    `{!∀ x, Decision (P x), !∀ x, Decision (Q x)} (l : list A) :
  (∀ x, x ∈ l → P x ↔ Q x) → filter P l = filter Q l.
Proof.
  induction l as [|a l IH]; intros Hext; [done|].
  assert (Ha : P a ↔ Q a) by (apply Hext, elem_of_cons; by left).
  assert (Hl : filter P l = filter Q l).
  { apply IH. intros x Hx. apply Hext, elem_of_cons. by right. }
  destruct (decide (P a)) as [Hp|Hp].
  - rewrite !filter_cons_True by tauto. by rewrite Hl.
  - rewrite !filter_cons_False by tauto. exact Hl.
Qed.

Lemma filter_fmap {A B} (f : A → B) (P : B → Prop) `{!∀ y, Decision (P y)} (l : list A) :
  filter P (f <$> l) = f <$> filter (fun x => P (f x)) l.
Proof.
  induction l as [|a l IH]; [done|]. rewrite fmap_cons.
  destruct (decide (P (f a))) as [Hp|Hp].
  - rewrite !filter_cons_True by done. by rewrite fmap_cons, IH.
  - rewrite !filter_cons_False by done. exact IH.
Qed.

Lemma head_take_1 {A} (l : list A) : head (take 1 l) = head l.
Proof. by destruct l. Qed.

(** Against a table with at most one row per key the left merge is a
    map: one merged row per flight, in order. *)
Lemma merge_unique left right :
  (∀ k, length (filter (fun w => weather_key w = k) right) ≤ 1)%nat →
  merge left right = first_match right <$> left.
Proof.
  intros Huniq. unfold merge. induction left as [|f left IH]; [done|].
  rewrite bind_cons, IH, fmap_cons. unfold first_match at 2.
  specialize (Huniq (flight_key f)).
  destruct (filter _ right) as [|w [|w' ms]]; [done | done | simpl in Huniq; lia].
Qed.

Lemma merge_drop_duplicates left l :
  merge left (drop_duplicates l) = first_match l <$> left.
Proof.
  rewrite merge_unique.
  - apply list_fmap_ext. intros _ f _. unfold first_match.
    by rewrite filter_drop_duplicates, head_take_1.
  - intros k. rewrite filter_drop_duplicates.
    destruct (filter _ l) as [|w [|w' ms]]; simpl; lia.
Qed.

(** The rows selected through the index at line 157 are the rows
    without weather. *)
Lemma missing_matches_filter cols merged :
  missing_matches cols merged = filter (fun m => has_weather cols m = false) merged.
Proof.
  unfold missing_matches.
  set (indexed := imap (fun i m => (i, m)) merged).
  assert (Hsnd : snd <$> indexed = merged).
  { subst indexed. rewrite fmap_imap.
    rewrite (imap_ext _ (const id)) by done. by rewrite imap_const, list_fmap_id. }
  assert (Hidx : ∀ im, im ∈ indexed → indexed !! im.1 = Some im).
  { intros im Him. subst indexed.
    apply elem_of_lookup_imap in Him as (i & m & -> & Hm).
    simpl. rewrite list_lookup_imap, Hm. reflexivity. }
  rewrite (filter_ext_in _ (fun im => has_weather cols im.2 = false) indexed).
  - transitivity (filter (fun m => has_weather cols m = false) (snd <$> indexed)).
    + by rewrite filter_fmap.
    + by rewrite Hsnd.
  - intros im Him. split.
    + intros Hnot. destruct (has_weather cols im.2) eqn:Hw; [|done].
      exfalso. apply Hnot. apply list_elem_of_fmap. exists im. split; [done|].
      apply list_elem_of_filter. by split.
    + intros Hw Hin. apply list_elem_of_fmap in Hin as (im' & Heq & Hin).
      apply list_elem_of_filter in Hin as [Hw' Hin'].
      pose proof (Hidx _ Him) as H1. pose proof (Hidx _ Hin') as H2.
      rewrite Heq, H2 in H1. injection H1 as ->. congruence.
Qed.

(** What the merge attaches to a flight is a row of the right table
    with the flight's key, and it attaches nothing only when the table
    has no such row. *)
Lemma first_match_Some weather f w :
  m_weather (first_match weather f) = Some w →
  w ∈ weather ∧ weather_key w = flight_key f.
Proof.
  unfold first_match. simpl. intros H.
  apply head_Some_elem_of, list_elem_of_filter in H. tauto.
Qed.

Lemma first_match_None weather f :
  m_weather (first_match weather f) = None →
  ∀ w, w ∈ weather → weather_key w ≠ flight_key f.
Proof.
  unfold first_match. simpl. intros H w Hw Hk. apply head_None in H.
  eapply filter_nil_not_elem_of; [exact H | exact Hk | exact Hw].
Qed.

(** ** The stacked weather table *)

Section JoinFacts.

Variable to_datetime : bool → string → option date.

Lemma stacked_rows selected dir :
  rows (read_and_stack_weather to_datetime selected dir).1
  = (fun r => normalize_iata (date_str_as_text r))
      <$> concat ((fun x => rows x.2) <$> load_all to_datetime selected dir).
Proof.
  unfold read_and_stack_weather. by destruct (load_all to_datetime selected dir).
Qed.

(** The key and provenance columns are filled in every stacked row. *)
Lemma stacked_row_keys selected dir r :
  r ∈ rows (read_and_stack_weather to_datetime selected dir).1 →
  is_Some (r !! "iata") ∧ is_Some (r !! "date_str") ∧ is_Some (r !! "source_file").
Proof.
  rewrite stacked_rows. intros H.
  apply list_elem_of_fmap in H as (r0 & -> & H).
  apply elem_of_concat in H as (rs & Hr0 & Hrs).
  apply list_elem_of_fmap in Hrs as ([iata fr] & -> & Hfr). simpl in Hr0.
  unfold load_all in Hfr. apply list_elem_of_omap in Hfr as (iata' & _ & Hfr).
  destruct (dir !! weather_name iata') as [w|]; [|done]. simpl in Hfr.
  unfold load_weather in Hfr.
  destruct (if bool_decide ("time" ∈ columns w) then _ else _) as [dc|]; [|done].
  simpl in Hfr. injection Hfr as <- <-. simpl in Hr0.
  apply list_elem_of_fmap in Hr0 as (r1 & -> & _).
  unfold normalize_iata, date_str_as_text. split_and!.
  - rewrite lookup_insert_eq. eauto.
  - rewrite lookup_insert_ne, lookup_insert_eq by done. eauto.
  - rewrite !lookup_insert_ne, lookup_insert_eq by done. eauto.
Qed.

Lemma elem_of_add_column c c' cols : c ∈ cols → c ∈ add_column c' cols.
Proof.
  intros H. unfold add_column. case_bool_decide; [done|].
  apply elem_of_app. by left.
Qed.

Lemma elem_of_add_column_new c cols : c ∈ add_column c cols.
Proof.
  unfold add_column. case_bool_decide; [done|].
  apply elem_of_app. right. apply elem_of_cons. by left.
Qed.

(** When a row was stacked, the key and provenance columns are columns
    of the stacked frame. *)
Lemma stacked_columns selected dir :
  rows (read_and_stack_weather to_datetime selected dir).1 ≠ [] →
  "iata" ∈ columns (read_and_stack_weather to_datetime selected dir).1
  ∧ "date_str" ∈ columns (read_and_stack_weather to_datetime selected dir).1
  ∧ "source_file" ∈ columns (read_and_stack_weather to_datetime selected dir).1.
Proof.
  unfold read_and_stack_weather.
  destruct (load_all to_datetime selected dir) as [|[iata fr] loaded] eqn:Hl; simpl; [done|].
  intros _.
  assert (Hfr : (iata, fr) ∈ load_all to_datetime selected dir)
    by (rewrite Hl; apply elem_of_cons; by left).
  unfold load_all in Hfr. apply list_elem_of_omap in Hfr as (iata' & _ & Hfr).
  destruct (dir !! weather_name iata') as [w|]; [|done]. simpl in Hfr.
  unfold load_weather in Hfr.
  destruct (if bool_decide ("time" ∈ columns w) then _ else _) as [dc|]; [|done].
  simpl in Hfr. injection Hfr as <- <-. simpl.
  rewrite !elem_of_remove_dups, !elem_of_app.
  split_and!; left.
  - apply elem_of_add_column, elem_of_add_column_new.
  - apply elem_of_add_column, elem_of_add_column, elem_of_add_column_new.
  - apply elem_of_add_column_new.
Qed.

(** ** What [main] writes *)

Lemma main_without_weather flights dir wa found :
  read_and_stack_weather to_datetime SELECTED dir = (wa, found) →
  rows wa = [] →
  main to_datetime flights dir
  = {| out_merged :=
         (fun f => {| m_flight := f; m_weather := None |}) <$> select_flights to_datetime flights;
       out_missing_orig := missing_origins SELECTED found;
       out_missing_matches := None |}.
Proof.
  intros Hread Hrows. unfold main. rewrite Hread.
  rewrite bool_decide_true by (by left). reflexivity.
Qed.

Lemma elem_of_drop_duplicates_from seen l w :
  w ∈ drop_duplicates_from seen l → w ∈ l.
Proof.
  revert seen. induction l as [|r rest IH]; intros seen; simpl; [done|].
  case_bool_decide as Hseen.
  - intros Hw. apply elem_of_cons. right. by apply (IH seen).
  - rewrite !elem_of_cons. intros [->|Hw]; [by left|]. right. by apply (IH _ Hw).
Qed.

(** The first row of a key survives the de-duplication. *)
Lemma head_filter_drop_duplicates l k :
  head (filter (fun r => weather_key r = k) (drop_duplicates l))
  = head (filter (fun r => weather_key r = k) l).
Proof. by rewrite filter_drop_duplicates, head_take_1. Qed.

Lemma main_with_weather flights dir wa found :
  read_and_stack_weather to_datetime SELECTED dir = (wa, found) →
  rows wa ≠ [] →
  let merged :=
    first_match (weather_unique wa)
      <$> (date_key_as_text <$> select_flights to_datetime flights) in
  main to_datetime flights dir
  = {| out_merged := merged;
       out_missing_orig := missing_origins SELECTED found;
       out_missing_matches :=
         Some (filter (fun m => has_weather (columns wa) m = false) merged) |}.
Proof.
  intros Hread Hrows merged. unfold main. rewrite Hread.
  assert (Hcols : columns wa ≠ []).
  { pose proof (stacked_columns SELECTED dir) as H. rewrite Hread in H. simpl in H.
    destruct (H Hrows) as [H1 _]. intros Heq. rewrite Heq in H1.
    by apply elem_of_nil in H1. }
  rewrite bool_decide_false by tauto.
  rewrite merge_unique.
  - fold merged. rewrite missing_matches_filter. by destruct (columns wa).
  - intros k. unfold weather_unique. rewrite filter_drop_duplicates.
    destruct (filter _ _) as [|w [|w' ms]]; simpl; lia.
Qed.

(** Every row of the de-duplicated table carries its key and
    provenance columns. *)
Lemma weather_unique_keys dir wa found w :
  read_and_stack_weather to_datetime SELECTED dir = (wa, found) →
  w ∈ weather_unique wa →
  is_Some (w !! "iata") ∧ is_Some (w !! "date_str") ∧ is_Some (w !! "source_file").
Proof.
  intros Hread Hw. unfold weather_unique, drop_duplicates in Hw.
  apply elem_of_drop_duplicates_from in Hw.
  apply list_elem_of_fmap in Hw as (r & -> & Hr).
  pose proof (stacked_row_keys SELECTED dir r) as H. rewrite Hread in H. simpl in H.
  destruct (H Hr) as (H1 & H2 & H3). unfold date_str_as_text. split_and!.
  - by rewrite lookup_insert_ne.
  - rewrite lookup_insert_eq. eauto.
  - by rewrite lookup_insert_ne.
Qed.

(** A merged row has weather exactly when a weather row was attached:
    the attached row always carries its [iata]. *)
Lemma has_weather_attached dir wa found f :
  read_and_stack_weather to_datetime SELECTED dir = (wa, found) →
  rows wa ≠ [] →
  let m := first_match (weather_unique wa) f in
  has_weather (columns wa) m = true ↔ is_Some (m_weather m).
Proof.
  intros Hread Hrows m. unfold has_weather. rewrite existsb_exists. split.
  - intros (c & _ & Hc). apply bool_decide_eq_true in Hc as [v Hv].
    unfold weather_cell in Hv. destruct (m_weather m); [eauto | done].
  - intros [w Hw]. exists "iata". split.
    + apply list_elem_of_In.
      pose proof (stacked_columns SELECTED dir) as H. rewrite Hread in H. simpl in H.
      by destruct (H Hrows).
    + apply bool_decide_eq_true. unfold weather_cell. rewrite Hw. simpl.
      apply first_match_Some in Hw as [Hin _].
      by destruct (weather_unique_keys dir wa found w Hread Hin).
Qed.

Lemma missing_origins_spec selected found s :
  s ∈ missing_origins selected found ↔ s ∈ selected ∧ s ∉ found.
Proof.
  unfold missing_origins.
  rewrite (merge_sort_Permutation String.le), elem_of_remove_dups, list_elem_of_filter.
  tauto.
Qed.

(** ** Matched and unmatched rows *)

(** C10: when weather was loaded, the key and provenance columns
    [iata], [date_str] and [source_file] are among the columns the
    match test examines, and for every merged row the test is true
    exactly when the left join attached a row of the de-duplicated
    weather table, one with the flight's (origin, date) key; the three
    columns are non-null in an attached row and every examined cell is
    null without one.  So the missing-matches output is exactly the
    rows to which nothing was attached, whatever the daily variables
    of an attached row hold. *)
Theorem C10_has_weather_iff_joined flights dir :
  let wa := (read_and_stack_weather to_datetime SELECTED dir).1 in
  let out := main to_datetime flights dir in
  rows wa ≠ [] →
  ("iata" ∈ columns wa ∧ "date_str" ∈ columns wa ∧ "source_file" ∈ columns wa)
  ∧ (∀ m, m ∈ out_merged out →
       (has_weather (columns wa) m = true ↔ is_Some (m_weather m))
       ∧ (is_Some (m_weather m)
          ↔ ∃ w, w ∈ weather_unique wa ∧ weather_key w = flight_key (m_flight m))
       ∧ (∀ w, m_weather m = Some w →
            w ∈ weather_unique wa ∧ weather_key w = flight_key (m_flight m)
            ∧ is_Some (weather_cell m "iata")
            ∧ is_Some (weather_cell m "date_str")
            ∧ is_Some (weather_cell m "source_file"))
       ∧ (m_weather m = None → ∀ c, weather_cell m c = None))
  ∧ out_missing_matches out
    = Some (filter (fun m => m_weather m = None) (out_merged out)).
Proof.
  intros wa out Hrows. subst wa out.
  destruct (read_and_stack_weather to_datetime SELECTED dir) as [wa found] eqn:Hread.
  simpl in Hrows |- *.
  rewrite (main_with_weather flights dir wa found Hread Hrows). simpl.
  assert (Hattached : ∀ m,
            m ∈ first_match (weather_unique wa)
                  <$> (date_key_as_text <$> select_flights to_datetime flights) →
            has_weather (columns wa) m = true ↔ is_Some (m_weather m)).
  { intros m Hm. apply list_elem_of_fmap in Hm as (f & -> & _).
    by apply (has_weather_attached dir wa found). }
  split; [|split].
  - pose proof (stacked_columns SELECTED dir) as H. rewrite Hread in H. by apply H.
  - intros m Hm. split_and!.
    + by apply Hattached.
    + apply list_elem_of_fmap in Hm as (f & -> & _). split.
      * intros [w Hw]. exists w. by apply first_match_Some.
      * intros (w & Hw & Hk). destruct (m_weather _) eqn:Hnone; [eauto|].
        exfalso. by apply (first_match_None _ _ Hnone w Hw).
    + intros w Hw. apply list_elem_of_fmap in Hm as (f & -> & _).
      destruct (first_match_Some _ _ _ Hw) as [Hin Hk].
      destruct (weather_unique_keys dir wa found w Hread Hin) as (H1 & H2 & H3).
      unfold weather_cell. rewrite Hw. simpl. by split_and!.
    + intros Hnone c. unfold weather_cell. by rewrite Hnone.
  - f_equal. apply filter_ext_in. intros m Hm.
    specialize (Hattached m Hm). rewrite <- not_true_iff_false, Hattached.
    rewrite <- eq_None_not_Some. tauto.
Qed.

(** C9 (amended): the missing-matches output is written only when
    weather was loaded, and then it consists of exactly the merged rows
    in which no weather-sourced column is populated, that is, the rows
    the join attached nothing to.  The origin plays no part: the rows
    of flights whose origin has no weather at all are among them.
    missing-origins lists, besides, the configured stations from which
    no weather file was loaded. *)
Theorem C9_missing_matches_are_all_unmatched_rows flights dir :
  let stacked := read_and_stack_weather to_datetime SELECTED dir in
  let out := main to_datetime flights dir in
  (rows stacked.1 = [] → out_missing_matches out = None)
  ∧ (rows stacked.1 ≠ [] →
     out_missing_matches out
     = Some (filter (fun m => has_weather (columns stacked.1) m = false) (out_merged out))
     ∧ ∀ m, m ∈ out_merged out →
            (has_weather (columns stacked.1) m = false ↔ m_weather m = None)
            ∧ (m_weather m = None
               → ∃ mm, out_missing_matches out = Some mm ∧ m ∈ mm))
  ∧ (∀ s, s ∈ out_missing_orig out ↔ s ∈ SELECTED ∧ s ∉ stacked.2).
Proof.
  intros stacked out. subst stacked out.
  destruct (read_and_stack_weather to_datetime SELECTED dir) as [wa found] eqn:Hread.
  simpl. split_and!.
  - intros Hrows. by rewrite (main_without_weather flights dir wa found Hread Hrows).
  - intros Hrows. rewrite (main_with_weather flights dir wa found Hread Hrows). simpl.
    assert (Hattached : ∀ m,
              m ∈ first_match (weather_unique wa)
                    <$> (date_key_as_text <$> select_flights to_datetime flights) →
              has_weather (columns wa) m = false ↔ m_weather m = None).
    { intros m Hm. apply list_elem_of_fmap in Hm as (f & -> & _).
      rewrite <- not_true_iff_false, (has_weather_attached dir wa found f Hread Hrows).
      rewrite <- eq_None_not_Some. tauto. }
    split; [done|]. intros m Hm. split; [by apply Hattached|].
    intros Hnone. eexists. split; [reflexivity|].
    apply list_elem_of_filter. split; [by apply Hattached | done].
  - intros s. destruct (decide (rows wa = [])) as [Hrows|Hrows].
    + rewrite (main_without_weather flights dir wa found Hread Hrows). simpl.
      apply missing_origins_spec.
    + rewrite (main_with_weather flights dir wa found Hread Hrows). simpl.
      apply missing_origins_spec.
Qed.

(** ** One merged row per selected flight *)

Lemma filter_none {A} (P : A → Prop) `{!∀ x, Decision (P x)} (l : list A) :
  (∀ x, x ∈ l → ¬ P x) → filter P l = [].
Proof.
  induction l as [|a l IH]; intros Hno; [done|].
  rewrite filter_cons_False by (apply Hno, elem_of_cons; by left).
  apply IH. intros x Hx. apply Hno, elem_of_cons. by right.
Qed.

(** In a table numbered by [imap], the rows that pass a filter and
    carry the number of input row [i] are that row alone, if it
    passes. *)
Lemma filter_line_imap {A} (mk : nat → A → Flight) (P : Flight → Prop)
    `{!∀ f, Decision (P f)} (l : list A) (k : nat) :
  (∀ j a, line (mk j a) = (k + j)%nat) →
  ∀ i a, l !! i = Some a →
  filter (fun f => line f = (k + i)%nat) (filter P (imap mk l))
  = if decide (P (mk i a)) then [mk i a] else [].
Proof.
  revert mk k. induction l as [|x l IH]; intros mk k Hline i a Hi; [done|].
  rewrite imap_cons. destruct i as [|i]; simpl in Hi.
  - injection Hi as ->.
    assert (Hrest : filter (fun f => line f = (k + 0)%nat) (filter P (imap (mk ∘ S) l)) = []).
    { apply filter_none. intros f Hf Heq.
      apply list_elem_of_filter in Hf as [_ Hf].
      apply elem_of_lookup_imap in Hf as (j & b & -> & _).
      simpl in Heq. rewrite Hline in Heq. lia. }
    destruct (decide (P (mk 0%nat a))) as [Hp|Hp].
    + rewrite (filter_cons_True P) by done.
      rewrite filter_cons_True by apply Hline. by rewrite Hrest.
    + rewrite (filter_cons_False P) by done. exact Hrest.
  - assert (Hhead : filter (fun f => line f = (k + S i)%nat) (filter P (mk 0%nat x :: imap (mk ∘ S) l))
                    = filter (fun f => line f = (k + S i)%nat) (filter P (imap (mk ∘ S) l))).
    { destruct (decide (P (mk 0%nat x))) as [Hp|Hp].
      - rewrite (filter_cons_True P) by done.
        rewrite filter_cons_False; [done|]. rewrite Hline. lia.
      - by rewrite (filter_cons_False P). }
    rewrite Hhead. replace (k + S i)%nat with (S k + i)%nat by lia.
    apply (IH (mk ∘ S) (S k)); [|done].
    intros j b. simpl. rewrite Hline. lia.
Qed.

(** The rows of [select_flights] that come from input row [i]. *)
Lemma select_flights_line flights i r :
  flights !! i = Some r →
  filter (fun f => line f = i) (select_flights to_datetime flights)
  = if bool_decide (normalize_origin r ∈ SELECTED)
    then [add_orig_iata (normalize_row to_datetime i r)] else [].
Proof.
  intros Hi. unfold select_flights, normalize_flight_dates_and_origin.
  rewrite filter_fmap.
  pose proof (filter_line_imap (normalize_row to_datetime)
                (fun f => origin f ∈ SELECTED) flights 0%nat (fun _ _ => eq_refl) i r Hi) as Hf.
  simpl in Hf. simpl. rewrite Hf.
  case_decide; case_bool_decide; done.
Qed.

Lemma join_row_flight wa f :
  line (m_flight (join_row wa f)) = line f
  ∧ flight_date (m_flight (join_row wa f)) = flight_date f
  ∧ origin (m_flight (join_row wa f)) = origin f.
Proof. unfold join_row. by case_bool_decide. Qed.

Lemma main_merged flights dir :
  out_merged (main to_datetime flights dir)
  = join_row (read_and_stack_weather to_datetime SELECTED dir).1
      <$> select_flights to_datetime flights.
Proof.
  destruct (read_and_stack_weather to_datetime SELECTED dir) as [wa found] eqn:Hread.
  simpl. destruct (decide (rows wa = [])) as [Hrows|Hrows].
  - rewrite (main_without_weather flights dir wa found Hread Hrows). simpl.
    apply list_fmap_ext. intros _ f _. unfold join_row. by rewrite bool_decide_true.
  - rewrite (main_with_weather flights dir wa found Hread Hrows). simpl.
    rewrite <- list_fmap_compose.
    apply list_fmap_ext. intros _ f _. unfold join_row. by rewrite bool_decide_false.
Qed.

(** The merged rows that come from input row [i]: one if its origin is
    in the allow-list, none otherwise. *)
Lemma merged_line flights dir i r :
  flights !! i = Some r →
  filter (fun m => line (m_flight m) = i) (out_merged (main to_datetime flights dir))
  = if bool_decide (normalize_origin r ∈ SELECTED)
    then [join_row (read_and_stack_weather to_datetime SELECTED dir).1
            (add_orig_iata (normalize_row to_datetime i r))]
    else [].
Proof.
  intros Hi. rewrite main_merged, filter_fmap.
  rewrite (filter_ext_in _ (fun f => line f = i)).
  - rewrite (select_flights_line flights i r Hi). by case_bool_decide.
  - intros f _. by rewrite (proj1 (join_row_flight _ f)).
Qed.

(** C1: the merged output has exactly one row for each input flight row
    whose origin is in the allow-list and none for the others, and
    every merged row comes from an input row.  The weather table the
    merge sees holds, under each (iata, date_str) key, the first stacked
    row of that key and no other. *)
Theorem C1_one_merged_row_per_selected_flight flights dir :
  let wa := (read_and_stack_weather to_datetime SELECTED dir).1 in
  let merged := out_merged (main to_datetime flights dir) in
  (∀ i r, flights !! i = Some r →
     filter (fun m => line (m_flight m) = i) merged
     = (if bool_decide (normalize_origin r ∈ SELECTED)
        then [join_row wa (add_orig_iata (normalize_row to_datetime i r))] else [])
     ∧ length (filter (fun m => line (m_flight m) = i) merged)
       = if bool_decide (normalize_origin r ∈ SELECTED) then 1%nat else 0%nat)
  ∧ (∀ m, m ∈ merged →
       ∃ i r, flights !! i = Some r ∧ line (m_flight m) = i
              ∧ normalize_origin r ∈ SELECTED)
  ∧ (∀ k, filter (fun w => weather_key w = k) (weather_unique wa)
          = take 1 (filter (fun w => weather_key w = k) (date_str_as_text <$> rows wa)))
  ∧ (∀ k, (length (filter (fun w => weather_key w = k) (weather_unique wa)) ≤ 1)%nat).
Proof.
  intros wa merged. subst wa merged. split_and!.
  - intros i r Hi. rewrite (merged_line flights dir i r Hi).
    split; [done | by case_bool_decide].
  - intros m Hm. rewrite main_merged in Hm.
    apply list_elem_of_fmap in Hm as (f & -> & Hf).
    unfold select_flights in Hf. apply list_elem_of_fmap in Hf as (f0 & -> & Hf0).
    apply list_elem_of_filter in Hf0 as [Hsel Hf0].
    unfold normalize_flight_dates_and_origin in Hf0.
    apply elem_of_lookup_imap in Hf0 as (i & r & -> & Hi).
    exists i, r. split_and!; [done | | done].
    by rewrite (proj1 (join_row_flight _ _)).
  - intros k. unfold weather_unique. apply filter_drop_duplicates.
  - intros k. unfold weather_unique. rewrite filter_drop_duplicates.
    destruct (filter _ _) as [|w [|w' ms]]; simpl; lia.
Qed.

(** ** Flights whose date does not parse *)

Lemma isoformat_not_nan d : Date.isoformat d ≠ "nan".
Proof.
  unfold Date.isoformat, Date.pad4, Date.pad2. intros H.
  apply (f_equal String.length) in H. rewrite !append_length in H.
  simpl in H. lia.
Qed.

(** A weather row attached to a flight has the flight's key. *)
Lemma join_row_key wa f w :
  m_weather (join_row wa f) = Some w → weather_key w = flight_key (date_key_as_text f).
Proof.
  unfold join_row. case_bool_decide; [discriminate|].
  intros Hw. by apply first_match_Some in Hw as [_ Hk].
Qed.

(** The key under which a selected flight is joined. *)
Lemma selected_flight_key i r :
  flight_key (date_key_as_text (add_orig_iata (normalize_row to_datetime i r)))
  = (Some (normalize_origin r),
     Some (Py.astype_str (strftime (raw_date r ≫= to_datetime true)))).
Proof. reflexivity. Qed.

(** A weather row attached to a flight is a row of the de-duplicated
    table. *)
Lemma join_row_weather wa f w :
  m_weather (join_row wa f) = Some w → w ∈ weather_unique wa.
Proof.
  unfold join_row. case_bool_decide; [discriminate|].
  intros Hw. by apply first_match_Some in Hw as [Hin _].
Qed.

(** When every row of every weather file has a date that parses, every
    stacked row has a canonical date. *)
Lemma stacked_dates selected dir r :
  (∀ iata w r0, iata ∈ selected → dir !! weather_name iata = Some w →
                "time" ∈ columns w ∨ "date" ∈ columns w → r0 ∈ rows w →
                is_Some (r0 !! date_column w ≫= to_datetime false)) →
  r ∈ rows (read_and_stack_weather to_datetime selected dir).1 →
  ∃ d, r !! "date_str" = Some (Date.isoformat d).
Proof.
  intros Hdated. rewrite stacked_rows. intros H.
  apply list_elem_of_fmap in H as (r0 & -> & H).
  apply elem_of_concat in H as (rs & Hr0 & Hrs).
  apply list_elem_of_fmap in Hrs as ([iata fr] & -> & Hfr). cbn [snd] in Hr0.
  unfold load_all in Hfr. apply list_elem_of_omap in Hfr as (s & Hsel & Hfr).
  destruct (dir !! weather_name s) as [w|] eqn:Hw; [|done]. cbn [mbind option_bind] in Hfr.
  destruct (load_weather to_datetime s (weather_name s) w) as [fr'|] eqn:Hload; [|done].
  cbn [fmap option_fmap option_map] in Hfr. injection Hfr as <- <-.
  pose proof (Hdated s w) as Hrow. clear Hdated.
  unfold load_weather in Hload. unfold date_column in Hrow.
  destruct (bool_decide ("time" ∈ columns w)) eqn:Htime.
  - injection Hload as <-. cbn [rows] in Hr0.
    apply list_elem_of_fmap in Hr0 as (raw & -> & Hraw).
    apply bool_decide_eq_true in Htime.
    destruct (Hrow raw Hsel Hw (or_introl Htime) Hraw) as [d Hd]. exists d.
    unfold normalize_iata at 1. rewrite lookup_insert_ne by done.
    unfold date_str_as_text. rewrite lookup_insert_eq. f_equal.
    rewrite lookup_insert_ne by done.
    unfold normalize_iata. rewrite lookup_insert_ne by done.
    rewrite Hd. unfold strftime, assign. cbn [fmap option_fmap option_map].
    case_bool_decide; [|rewrite lookup_insert_ne by done];
      by rewrite lookup_insert_eq.
  - destruct (bool_decide ("date" ∈ columns w)) eqn:Hdate; [|done].
    injection Hload as <-. cbn [rows] in Hr0.
    apply list_elem_of_fmap in Hr0 as (raw & -> & Hraw).
    apply bool_decide_eq_true in Hdate.
    destruct (Hrow raw Hsel Hw (or_intror Hdate) Hraw) as [d Hd]. exists d. clear Htime.
    unfold normalize_iata at 1. rewrite lookup_insert_ne by done.
    unfold date_str_as_text. rewrite lookup_insert_eq. f_equal.
    rewrite lookup_insert_ne by done.
    unfold normalize_iata. rewrite lookup_insert_ne by done.
    rewrite Hd. unfold strftime, assign. cbn [fmap option_fmap option_map].
    case_bool_decide; [|rewrite lookup_insert_ne by done];
      by rewrite lookup_insert_eq.
Qed.

(** A weather row whose canonical date is a date cannot carry the key
    of a flight whose date did not parse. *)
Lemma dated_row_not_nan wa w :
  (∀ r, r ∈ rows wa → ∃ d, r !! "date_str" = Some (Date.isoformat d)) →
  w ∈ weather_unique wa → w !! "date_str" ≠ Some "nan".
Proof.
  intros Hdated Hw. unfold weather_unique, drop_duplicates in Hw.
  apply elem_of_drop_duplicates_from in Hw.
  apply list_elem_of_fmap in Hw as (r & -> & Hr).
  destruct (Hdated r Hr) as [d Hd].
  unfold date_str_as_text. rewrite lookup_insert_eq, Hd. cbn.
  intros Heq. apply (inj Some) in Heq. exact (isoformat_not_nan d Heq).
Qed.

(** A flight without canonical date is joined to nothing when every
    weather row has one. *)
Lemma unmatched_when_dated wa f :
  (∀ r, r ∈ rows wa → ∃ d, r !! "date_str" = Some (Date.isoformat d)) →
  flight_date_str f = None →
  m_weather (join_row wa f) = None.
Proof.
  intros Hdated Hnull. destruct (m_weather (join_row wa f)) as [w|] eqn:Hw; [exfalso|done].
  apply join_row_key in Hw as Hk. apply join_row_weather in Hw.
  unfold weather_key, flight_key, date_key_as_text in Hk. cbn in Hk. rewrite Hnull in Hk.
  injection Hk as _ Hdate.
  by apply (dated_row_not_nan wa w Hdated Hw).
Qed.

(** C8: a flight row whose date text does not parse gets a null parsed
    date and a null canonical date.  If its origin is in the allow-list
    it is in the merged output exactly once; what the merge could attach
    to it is only a weather row of its station whose own canonical date
    is null, and so, no weather row having a null date, it is matched to
    no weather row and all its weather cells are null.  If its origin is
    outside the allow-list it is not in the merged output. *)
Theorem C8_unparsable_flight_date flights dir i r :
  flights !! i = Some r →
  raw_date r ≫= to_datetime true = None →
  let merged := out_merged (main to_datetime flights dir) in
  (∃ f, normalize_flight_dates_and_origin to_datetime flights !! i = Some f
        ∧ flight_date_parsed f = None ∧ flight_date_str f = None)
  ∧ (normalize_origin r ∈ SELECTED →
     ∃ m, filter (fun m => line (m_flight m) = i) merged = [m]
          ∧ flight_date (m_flight m) = raw_date r
          ∧ origin (m_flight m) = normalize_origin r
          ∧ (∀ w, m_weather m = Some w →
                  w !! "iata" = Some (normalize_origin r)
                  ∧ w !! "date_str" = Some "nan"
                  ∧ ∀ d, w !! "date_str" ≠ Some (Date.isoformat d))
          ∧ (weather_dates_parse to_datetime dir →
             m_weather m = None ∧ ∀ c, weather_cell m c = None))
  ∧ (normalize_origin r ∉ SELECTED →
     filter (fun m => line (m_flight m) = i) merged = []).
Proof.
  intros Hi Hnat merged. subst merged. split_and!.
  - exists (normalize_row to_datetime i r). split_and!.
    + unfold normalize_flight_dates_and_origin. by rewrite list_lookup_imap, Hi.
    + simpl. exact Hnat.
    + simpl. by rewrite Hnat.
  - intros Hsel.
    eexists. rewrite (merged_line flights dir i r Hi), bool_decide_true by done.
    split; [reflexivity|].
    destruct (join_row_flight (read_and_stack_weather to_datetime SELECTED dir).1
                (add_orig_iata (normalize_row to_datetime i r))) as (_ & Hd & Ho).
    assert (Hnan : ∀ w,
      m_weather (join_row (read_and_stack_weather to_datetime SELECTED dir).1
                   (add_orig_iata (normalize_row to_datetime i r))) = Some w →
      w !! "iata" = Some (normalize_origin r) ∧ w !! "date_str" = Some "nan").
    { intros w Hw. apply join_row_key in Hw as Hk.
      rewrite (selected_flight_key i r), Hnat in Hk.
      unfold weather_key in Hk. by injection Hk as Hiata Hdate. }
    split_and!; [exact Hd | exact Ho | |].
    + intros w Hw. destruct (Hnan w Hw) as [Hiata Hdate].
      split_and!; [exact Hiata | exact Hdate |].
      intros d. rewrite Hdate. intros Heq. apply (inj Some) in Heq.
      exact (isoformat_not_nan d (eq_sym Heq)).
    + intros Hdated.
      assert (Hnone : m_weather (join_row (read_and_stack_weather to_datetime SELECTED dir).1
                                   (add_orig_iata (normalize_row to_datetime i r))) = None).
      { apply unmatched_when_dated.
        - intros r0. apply stacked_dates. exact Hdated.
        - cbn. by rewrite Hnat. }
      split; [exact Hnone|]. intros c. unfold weather_cell. by rewrite Hnone.
  - intros Hsel. by rewrite (merged_line flights dir i r Hi), bool_decide_false.
Qed.

End JoinFacts.

(** * Closed instances *)

Lemma C2_retry_budget_witness :
  let first := make_params {| lat := 40.64; lon := -73.78 |} (Date.mk 2024 1 1) (Date.mk 2024 1 31) in
  let w' :=
    process_station Sample.always_429 Sample.registry Sample.time_parses "JFK" Sample.fresh in
  trace w'
  = [EvRequest first; EvSleep 61; EvRequest first; EvSleep 62;
     EvRequest first; EvSleep 64; EvRequest first; EvSleep 68;
     EvRequest first; EvSleep 76; EvRequest first; EvSleep 92;
     EvLog ["JFK"; "failed"; "partial_or_429"]]
  ∧ requests_made (trace w') = 6%nat
  ∧ logfile w' = Some [["JFK"; "failed"; "partial_or_429"]]
  ∧ cache w' = ∅.
Proof.
  apply (C2_retry_budget Sample.always_429 Sample.registry Sample.time_parses "JFK"
           {| lat := 40.64; lon := -73.78 |} Sample.fresh).
  - reflexivity.
  - reflexivity.
  - reflexivity.
Defined.

(** C4 (the code at the failing input): the first answer for JFK is a
    body without [daily].  The station is not abandoned: the remaining
    eleven months are requested too, one request each, before the
    station is logged [failed]; no cache file is written. *)
Theorem C4_malformed_month_keeps_fetching :
  let w' :=
    process_station Sample.first_malformed Sample.registry Sample.time_parses "JFK"
      Sample.fresh in
  start_date <$> requested (trace w')
  = ["2024-01-01"; "2024-02-01"; "2024-03-01"; "2024-04-01"; "2024-05-01"; "2024-06-01";
     "2024-07-01"; "2024-08-01"; "2024-09-01"; "2024-10-01"; "2024-11-01"; "2024-12-01"]
  ∧ requests_made (trace w') = 12%nat
  ∧ logfile w' = Some [["JFK"; "failed"; "partial_or_429"]]
  ∧ cache w' = ∅.
Proof. vm_compute. split_and!; reflexivity. Qed.

Lemma C5_second_run_makes_no_request_witness :
  let w1 :=
    resume Sample.always_ok Sample.registry Sample.time_parses ["JFK"; "XXX"]
      Sample.stray_cache in
  let w2 := resume Sample.always_429 Sample.registry Sample.time_parses ["JFK"; "XXX"] w1 in
  (∀ iata, iata ∈ ["JFK"; "XXX"] → is_Some (cache w1 !! cache_name iata))
  ∧ requests_made (trace w2) = requests_made (trace w1)
  ∧ (∃ old, logfile w1 = Some old
            ∧ logfile w2 = Some (old ++ (skip_row Sample.registry <$> ["JFK"; "XXX"])))
  ∧ cache w2 = cache w1.
Proof.
  intros w1 w2.
  assert (H : ∀ iata, iata ∈ ["JFK"; "XXX"] → is_Some (cache w1 !! cache_name iata)).
  { intros iata Hin. apply elem_of_cons in Hin as [->|Hin].
    - apply (bool_decide_unpack _). vm_compute. exact I.
    - apply list_elem_of_singleton in Hin as ->.
      apply (bool_decide_unpack _). vm_compute. exact I. }
  split; [exact H|].
  destruct (C5_second_run_makes_no_request Sample.always_ok Sample.always_429 Sample.registry
              Sample.time_parses ["JFK"; "XXX"] Sample.stray_cache H)
    as (_ & _ & Hreq & Hlog & Hcache & _).
  split_and!; [exact Hreq | exact Hlog | exact Hcache].
Defined.

(** C5 (counterexample): [XXX] has a cache file but no registry entry.
    After a first run over JFK and XXX both stations have a cache file,
    and the second run makes no request; yet it logs [cached] for JFK
    only: the row of XXX is [no_coords] again. *)
Lemma C5_unregistered_station_is_not_cached :
  let w1 :=
    resume Sample.always_ok Sample.registry Sample.time_parses ["JFK"; "XXX"]
      Sample.stray_cache in
  let w2 := resume Sample.always_429 Sample.registry Sample.time_parses ["JFK"; "XXX"] w1 in
  bool_decide (is_Some (cache w1 !! cache_name "JFK")) = true
  ∧ bool_decide (is_Some (cache w1 !! cache_name "XXX")) = true
  ∧ requests_made (trace w2) = requests_made (trace w1)
  ∧ logfile w1
    = Some [LOG_HEADER; ["JFK"; "ok"; "salvo"]; ["XXX"; "no_coords"; "pulado"]]
  ∧ logfile w2
    = Some [LOG_HEADER; ["JFK"; "ok"; "salvo"]; ["XXX"; "no_coords"; "pulado"];
            ["JFK"; "cached"; "ok"]; ["XXX"; "no_coords"; "pulado"]].
Proof. vm_compute. split_and!; reflexivity. Qed.


(** C7 (counterexample): [XXX] has a cache file but no registry entry;
    its audit row is [no_coords], not [cached]. *)
Lemma C7_cached_station_without_coords :
  is_Some (cache Sample.stray_cache !! cache_name "XXX")
  ∧ Sample.registry !! "XXX" = None
  ∧ logfile (process_station Sample.always_ok Sample.registry Sample.time_parses "XXX"
               Sample.stray_cache)
    = Some [["XXX"; "no_coords"; "pulado"]]
  ∧ logfile (process_station Sample.always_ok Sample.registry Sample.time_parses "XXX"
               Sample.stray_cache)
    ≠ Some [["XXX"; "cached"; "ok"]].
Proof. vm_compute. split_and!; [eauto | reflexivity | reflexivity | discriminate]. Qed.

(** Outside the premise of C8: the JFK file of [Sample.weather_dir] has
    a row whose [time] cell is empty.  The dates of input rows 1 (JFK)
    and 3 (XXX) do not parse; row 1 is joined to that weather row, the
    one with 9.0 degrees, both date keys reading [nan]. *)
Example null_dates_meet_in_the_join :
  Sample.to_datetime true "not a date" = None
  ∧ (fun m => (line (m_flight m), flight_date (m_flight m),
               weather_cell m "temperature_2m_max", weather_cell m "date_str"))
      <$> out_merged (main Sample.to_datetime Sample.flights Sample.weather_dir)
    = [ (0%nat, Some "01/02/2024", Some "5.0", Some "2024-02-01");
        (1%nat, Some "not a date", Some "9.0", Some "nan");
        (2%nat, Some "02/02/2024", None, None) ].
Proof. vm_compute. split; reflexivity. Qed.

Lemma sample_weather_dated : weather_dates_parse Sample.to_datetime Sample.dated_weather_dir.
Proof.
  intros iata w r _ Hw _ Hr. unfold Sample.dated_weather_dir in Hw.
  apply lookup_singleton_Some in Hw as [_ <-].
  cbn [rows] in Hr. apply elem_of_cons in Hr as [->|Hr].
  - vm_compute. eauto.
  - apply list_elem_of_singleton in Hr as ->. vm_compute. eauto.
Qed.

Lemma C8_unparsable_flight_date_witness :
  weather_dates_parse Sample.to_datetime Sample.dated_weather_dir
  ∧ ∃ m, filter (fun m => line (m_flight m) = 1%nat)
           (out_merged (main Sample.to_datetime Sample.flights Sample.dated_weather_dir)) = [m]
         ∧ flight_date (m_flight m) = Some "not a date"
         ∧ m_weather m = None.
Proof.
  split; [exact sample_weather_dated|].
  destruct (C8_unparsable_flight_date Sample.to_datetime Sample.flights
              Sample.dated_weather_dir 1%nat
              {| raw_date := Some "not a date"; raw_origin := Some "JFK"; raw_other := [] |})
    as (_ & Hsel & _).
  - reflexivity.
  - reflexivity.
  - destruct Hsel as (m & Hm & Hd & _ & _ & Hnone).
    + apply (bool_decide_unpack _). vm_compute. exact I.
    + exists m. split_and!; [exact Hm | exact Hd |].
      exact (proj1 (Hnone sample_weather_dated)).
Defined.

(** C9 (counterexample): no weather file exists for BOS and no stacked
    row is a BOS row, so BOS is in missing-origins; the BOS flight
    (input row 2) is nevertheless the content of missing-matches. *)
Lemma C9_flight_of_origin_without_weather_is_listed :
  let out := main Sample.to_datetime Sample.flights Sample.weather_dir in
  Sample.weather_dir !! weather_name "BOS" = None
  ∧ filter (fun r => r !! "iata" = Some "BOS")
      (rows (read_and_stack_weather Sample.to_datetime SELECTED Sample.weather_dir).1) = []
  ∧ out_missing_orig out
    = ["ALB"; "ANC"; "ATL"; "BOS"; "DEN"; "HNL"; "IAH"; "LAS"; "LAX"; "MIA";
       "MSP"; "MSY"; "ORD"; "PHL"; "PHX"; "SEA"; "SFO"; "SJU"; "SLC"]
  ∧ (fun mm : list MergedRow => (fun m => (line (m_flight m), origin (m_flight m))) <$> mm)
      <$> out_missing_matches out
    = Some [(2%nat, "BOS")].
Proof. vm_compute. split_and!; reflexivity. Qed.

Lemma C10_has_weather_iff_joined_witness :
  let out := main Sample.to_datetime Sample.flights Sample.weather_dir in
  rows (read_and_stack_weather Sample.to_datetime SELECTED Sample.weather_dir).1 ≠ []
  ∧ out_missing_matches out
    = Some (filter (fun m => m_weather m = None) (out_merged out)).
Proof.
  assert (H : rows (read_and_stack_weather Sample.to_datetime SELECTED Sample.weather_dir).1 ≠ []).
  { apply (bool_decide_unpack _). vm_compute. exact I. }
  split; [exact H|].
  exact (proj2 (proj2 (C10_has_weather_iff_joined Sample.to_datetime Sample.flights
                         Sample.weather_dir H))).
Defined.

(** The pending list is read upper-cased and trimmed, blank lines
    dropped. *)
Example read_missing_lines :
  read_missing ["jfk" +:+ String (ascii_of_nat 10) ""; String (ascii_of_nat 10) ""; "  bos "]
  = ["JFK"; "BOS"].
Proof. reflexivity. Qed.

(** The scenario of one JFK flight dated 01/02/2024 against a JFK file
    that has 2024-02-01 (twice, 5.0 first): one merged row, joined on
    2024-02-01 to the first of the two weather rows. *)
Example one_flight_one_match :
  (fun m => (flight_date_str (m_flight m), weather_cell m "temperature_2m_max",
             has_weather ["time"; "temperature_2m_max"; "iata"; "date_str"; "source_file"] m))
    <$> out_merged (main Sample.to_datetime
                      [{| raw_date := Some "01/02/2024"; raw_origin := Some "JFK";
                          raw_other := [] |}] Sample.weather_dir)
  = [(Some "2024-02-01", Some "5.0", true)].
Proof. vm_compute. reflexivity. Qed.


(** * Further properties of the fetch pipeline *)

(** ** The month partition of any range *)

(** The day before the first of the next month is the last calendar
    day of the month, for every month of the years 1 to 9999. *)
Lemma last_day_of_month (y m : Z) :
  1 ≤ y ≤ 9999 → 1 ≤ m ≤ 11 →
  Date.sub_days (Date.mk y (m + 1) 1) 1 = Date.mk y m (Date.days_in_month y m).
Proof.
  intros Hy Hm.
  assert (Hall : forallb (fun y => forallb (fun m =>
            bool_decide (Date.sub_days (Date.mk y (m + 1) 1) 1
                         = Date.mk y m (Date.days_in_month y m)))
            (seqZ 1 11)) (seqZ 1 9999) = true) by (vm_compute; reflexivity).
  rewrite forallb_forall in Hall.
  assert (Hyin : In y (seqZ 1 9999)) by (apply list_elem_of_In, elem_of_seqZ; lia).
  specialize (Hall y Hyin). rewrite forallb_forall in Hall.
  assert (Hmin : In m (seqZ 1 11)) by (apply list_elem_of_In, elem_of_seqZ; lia).
  specialize (Hall m Hmin). by apply bool_decide_eq_true in Hall.
Qed.

Lemma december_has_31_days y : Date.days_in_month y 12 = 31.
Proof. unfold Date.days_in_month. by rewrite andb_false_l. Qed.

Ltac zcmp :=
  repeat match goal with
         | |- context [(?a <? ?b)%Z] => destruct (Z.ltb_spec a b)
         | |- context [(?a =? ?b)%Z] => destruct (Z.eqb_spec a b)
         end;
  simpl; try lia; try done.

(** The months that [date_range_MS] enumerates, by their index. *)
Lemma elem_of_date_range_MS start end_ s :
  s ∈ date_range_MS start end_ ↔
  ∃ k, s = Date.mk (k / 12) (k mod 12 + 1) 1
       ∧ (if day start =? 1 then month_index start else month_index start + 1) ≤ k
       ∧ k ≤ month_index end_.
Proof.
  unfold date_range_MS. rewrite list_elem_of_fmap. split.
  - intros (k & -> & Hk). apply elem_of_seqZ in Hk. exists k. split; [done | lia].
  - intros (k & -> & Hk1 & Hk2). exists k. split; [done|]. apply elem_of_seqZ. lia.
Qed.

(** X1: for any calendar dates [start] and [end], every period of
    [months_between] starts on the first day of a month that lies in
    [start, end], and ends on the last calendar day of that month, or on
    [end] when the month runs past it. *)
Theorem months_between_periods start end_ p :
  valid_date start → valid_date end_ →
  p ∈ months_between start end_ →
  ∃ y m,
    1 ≤ y ≤ 9999 ∧ 1 ≤ m ≤ 12
    ∧ p.1 = Date.mk y m 1
    ∧ p.2 = (if Date.gtb (Date.mk y m (Date.days_in_month y m)) end_ then end_
             else Date.mk y m (Date.days_in_month y m))
    ∧ Date.leb start p.1 = true
    ∧ Date.leb p.1 end_ = true
    ∧ Date.leb p.2 end_ = true.
Proof.
  intros (Hys & Hms & Hds) (Hye & Hme & Hde) Hp.
  unfold months_between in Hp. apply list_elem_of_fmap in Hp as (s & -> & Hs).
  apply elem_of_date_range_MS in Hs as (k & -> & Hk1 & Hk2). simpl.
  pose proof (Z.div_mod k 12 ltac:(lia)) as Hdiv.
  pose proof (Z.mod_pos_bound k 12 ltac:(lia)) as Hmod.
  set (y := k / 12) in *. set (m0 := k mod 12) in *.
  unfold month_index in Hk1, Hk2.
  assert (Hy : 1 ≤ y ≤ 9999) by (destruct (day start =? 1); lia).
  exists y, (m0 + 1). split_and!; try lia; try done.
  - destruct (Z.eqb_spec (m0 + 1) 12) as [Heq|Hne].
    + rewrite Heq, december_has_31_days. reflexivity.
    + rewrite last_day_of_month by lia. reflexivity.
  - unfold Date.leb, Date.gtb. simpl. destruct (Z.eqb_spec (day start) 1); zcmp.
  - unfold Date.leb, Date.gtb. simpl. zcmp.
  - match goal with |- Date.leb (if ?b then _ else ?e) _ = _ => destruct b eqn:Hb end.
    + unfold Date.leb. by rewrite gtb_irrefl.
    + unfold Date.leb. by rewrite Hb.
Qed.

(** The day after the last day of a month is the first of the next. *)
Lemma next_month_ordinal (y m : Z) :
  1 ≤ m ≤ 12 →
  Date.toordinal (Date.mk y m (Date.days_in_month y m)) + 1
  = Date.toordinal (Date.mk ((12 * y + m) / 12) ((12 * y + m) mod 12 + 1) 1).
Proof.
  intros Hm.
  assert (Hcases : m = 1 ∨ m = 2 ∨ m = 3 ∨ m = 4 ∨ m = 5 ∨ m = 6 ∨ m = 7 ∨ m = 8
                   ∨ m = 9 ∨ m = 10 ∨ m = 11 ∨ m = 12) by lia.
  assert (Hnext : m < 12 → (12 * y + m) / 12 = y ∧ (12 * y + m) mod 12 = m).
  { intros Hlt. split.
    - symmetry. apply (Z.div_unique _ _ _ m); lia.
    - symmetry. apply (Z.mod_unique _ _ y m); lia. }
  assert (Hdec : (12 * y + 12) / 12 = y + 1 ∧ (12 * y + 12) mod 12 = 0).
  { split.
    - symmetry. apply (Z.div_unique _ _ _ 0); lia.
    - symmetry. apply (Z.mod_unique _ _ (y + 1) 0); lia. }
  unfold Date.toordinal, Date.days_before_month, Date.days_in_month. simpl.
  destruct Hcases as [->|[->|[->|[->|[->|[->|[->|[->|[->|[->|[->| ->]]]]]]]]]]];
    try (destruct (Hnext ltac:(lia)) as [-> ->]; destruct (Date.is_leap y);
         vm_compute Z.to_nat; simpl; lia).
  destruct Hdec as [-> ->]. simpl.
  unfold Date.days_before_year, Date.is_leap.
  replace (y + 1 - 1) with y by lia.
  pose proof (Z.div_mod y 4 ltac:(lia)). pose proof (Z.mod_pos_bound y 4 ltac:(lia)).
  pose proof (Z.div_mod y 100 ltac:(lia)). pose proof (Z.mod_pos_bound y 100 ltac:(lia)).
  pose proof (Z.div_mod y 400 ltac:(lia)). pose proof (Z.mod_pos_bound y 400 ltac:(lia)).
  pose proof (Z.div_mod (y - 1) 4 ltac:(lia)). pose proof (Z.mod_pos_bound (y - 1) 4 ltac:(lia)).
  pose proof (Z.div_mod (y - 1) 100 ltac:(lia)). pose proof (Z.mod_pos_bound (y - 1) 100 ltac:(lia)).
  pose proof (Z.div_mod (y - 1) 400 ltac:(lia)). pose proof (Z.mod_pos_bound (y - 1) 400 ltac:(lia)).
  destruct (Z.eqb_spec (y mod 4) 0); destruct (Z.eqb_spec (y mod 100) 0);
    destruct (Z.eqb_spec (y mod 400) 0); simpl; lia.
Qed.

Lemma months_between_lookup start end_ i p :
  months_between start end_ !! i = Some p →
  ∃ k, k = first_month start + Z.of_nat i ∧ k ≤ month_index end_
       ∧ p = period_of end_ (month_start k).
Proof.
  unfold months_between, date_range_MS. fold (first_month start).
  rewrite !list_lookup_fmap. intros H.
  destruct (seqZ _ _ !! i) as [k|] eqn:Hk; [|done].
  apply lookup_seqZ in Hk as [-> Hlt]. simpl in H. injection H as <-.
  eexists. split_and!; [reflexivity | lia | reflexivity].
Qed.

(** The period of a month of the years 1 to 9999 that ends before
    [end]: the whole month. *)
Lemma period_of_whole_month end_ k :
  12 ≤ k < 12 * 10000 → k < month_index end_ → 1 ≤ month end_ ≤ 12 → 1 ≤ day end_ →
  period_of end_ (month_start k)
  = (month_start k,
     Date.mk (k / 12) (k mod 12 + 1) (Date.days_in_month (k / 12) (k mod 12 + 1))).
Proof.
  intros Hk Hlt Hmonth Hday. unfold period_of, month_start. simpl.
  pose proof (Z.div_mod k 12 ltac:(lia)) as Hdiv.
  pose proof (Z.mod_pos_bound k 12 ltac:(lia)) as Hmod.
  set (y := k / 12) in *. set (m0 := k mod 12) in *. unfold month_index in Hlt.
  assert (Hlast : (if m0 + 1 =? 12 then Date.mk y 12 31
                   else Date.sub_days (Date.mk y (m0 + 1 + 1) 1) 1)
                  = Date.mk y (m0 + 1) (Date.days_in_month y (m0 + 1))).
  { destruct (Z.eqb_spec (m0 + 1) 12) as [Heq|Hne].
    - by rewrite Heq, december_has_31_days.
    - rewrite last_day_of_month by lia. reflexivity. }
  rewrite Hlast. f_equal.
  assert (Hgt : Date.gtb (Date.mk y (m0 + 1) (Date.days_in_month y (m0 + 1))) end_ = false).
  { unfold Date.gtb. simpl. zcmp. }
  by rewrite Hgt.
Qed.

(** X2: the periods tile the range.  Each period after the first starts
    on the day after the one before it ends; the last period ends on
    [end]; and when [start] is the first of a month, the first period
    starts on [start].  There are as many periods as months start in
    the range. *)
Theorem months_between_tiles start end_ :
  valid_date start → valid_date end_ →
  (∀ i p q, months_between start end_ !! i = Some p →
            months_between start end_ !! S i = Some q →
            Date.toordinal q.1 = Date.toordinal p.2 + 1)
  ∧ (∀ p, last (months_between start end_) = Some p → p.2 = end_)
  ∧ (∀ p, head (months_between start end_) = Some p → day start = 1 → p.1 = start)
  ∧ length (months_between start end_)
    = Z.to_nat (month_index end_ - first_month start + 1).
Proof.
  intros (Hys & Hms & Hds) (Hye & Hme & Hde).
  assert (Hfirst : 12 ≤ first_month start).
  { unfold first_month, month_index. destruct (day start =? 1); lia. }
  assert (Hlen : length (months_between start end_)
                 = Z.to_nat (month_index end_ - first_month start + 1)).
  { unfold months_between, date_range_MS. fold (first_month start).
    by rewrite !length_fmap, length_seqZ. }
  split_and!.
  - intros i p q Hp Hq.
    apply months_between_lookup in Hp as (k & Hk & Hkle & ->).
    apply months_between_lookup in Hq as (k' & Hk' & Hkle' & ->).
    assert (k' = k + 1) as -> by lia.
    rewrite (period_of_whole_month end_ k) by (unfold month_index in *; lia).
    simpl. rewrite next_month_ordinal by (pose proof (Z.mod_pos_bound k 12); lia).
    pose proof (Z.div_mod k 12 ltac:(lia)) as Hdiv.
    replace (12 * (k / 12) + (k mod 12 + 1)) with (k + 1) by lia. reflexivity.
  - intros p Hp. rewrite last_lookup in Hp.
    apply months_between_lookup in Hp as (k & Hk & Hkle & ->).
    rewrite Hlen in Hk.
    assert (k = month_index end_) as -> by lia.
    unfold period_of, month_start, month_index. simpl.
    assert (Hy : (year end_ * 12 + (month end_ - 1)) / 12 = year end_).
    { symmetry. apply (Z.div_unique _ _ _ (month end_ - 1)); lia. }
    assert (Hm : (year end_ * 12 + (month end_ - 1)) mod 12 = month end_ - 1).
    { symmetry. apply (Z.mod_unique _ _ (year end_) (month end_ - 1)); lia. }
    rewrite Hy, Hm. replace (month end_ - 1 + 1) with (month end_) by lia.
    match goal with |- (if ?b then _ else ?e) = _ => destruct b eqn:Hb; [done|] end.
    assert (Hlast : (if month end_ =? 12 then Date.mk (year end_) 12 31
                     else Date.sub_days (Date.mk (year end_) (month end_ + 1) 1) 1)
                    = Date.mk (year end_) (month end_)
                        (Date.days_in_month (year end_) (month end_))).
    { destruct (Z.eqb_spec (month end_) 12) as [Heq|Hne].
      - by rewrite Heq, december_has_31_days.
      - rewrite last_day_of_month by lia. reflexivity. }
    rewrite Hlast in Hb |- *. unfold Date.gtb in Hb. simpl in Hb.
    destruct end_ as [ye me de]. simpl in *. f_equal.
    revert Hb. zcmp.
  - intros p Hp Hday. rewrite head_lookup in Hp.
    apply months_between_lookup in Hp as (k & Hk & Hkle & ->).
    unfold first_month in Hk. rewrite Hday in Hk. simpl in Hk.
    assert (k = month_index start) as -> by lia.
    unfold period_of, month_start, month_index. simpl.
    assert (Hy : (year start * 12 + (month start - 1)) / 12 = year start).
    { symmetry. apply (Z.div_unique _ _ _ (month start - 1)); lia. }
    assert (Hm : (year start * 12 + (month start - 1)) mod 12 = month start - 1).
    { symmetry. apply (Z.mod_unique _ _ (year start) (month start - 1)); lia. }
    rewrite Hy, Hm. destruct start as [ys ms ds]. simpl in *. f_equal; lia.
  - exact Hlen.
Qed.


(** ** How many requests a period, a station and a run cost *)

Section FetchCost.

Variable archive : nat → Params → Response.
Variable ap : gmap string Coords.
Variable time_parses : list cell → bool.

Lemma requests_made_request params w :
  requests_made (trace (emit (EvRequest params) w)) = S (requests_made (trace w)).
Proof. simpl. rewrite requests_made_app. simpl. unfold requests_made at 2. simpl. lia. Qed.

Lemma requests_made_sleep secs w :
  requests_made (trace (sleep secs w)) = requests_made (trace w).
Proof. simpl. rewrite requests_made_app. unfold requests_made at 2. simpl. lia. Qed.

Lemma retry_loop_requests_mono iata params attempts backoff w :
  (requests_made (trace w)
   ≤ requests_made (trace (retry_loop archive iata params attempts backoff w).2))%nat.
Proof.
  destruct (retry_loop_net archive iata params attempts backoff w) as (_ & _ & evs & -> & _).
  rewrite requests_made_app. lia.
Qed.

(** One period costs at most one request per attempt, at least one
    request when there is an attempt to make, and all of them when the
    attempts run out. *)
Lemma retry_loop_requests iata params attempts backoff w :
  (requests_made (trace (retry_loop archive iata params attempts backoff w).2)
   ≤ requests_made (trace w) + length attempts)%nat
  ∧ (attempts ≠ [] →
     (requests_made (trace w)
      < requests_made (trace (retry_loop archive iata params attempts backoff w).2))%nat)
  ∧ ((retry_loop archive iata params attempts backoff w).1 = Exhausted →
     requests_made (trace (retry_loop archive iata params attempts backoff w).2)
     = (requests_made (trace w) + length attempts)%nat).
Proof.
  revert backoff w. induction attempts as [|attempt rest IH]; intros backoff w.
  - simpl. split_and!; [lia | done | lia].
  - cbn [retry_loop]. unfold safe_get.
    pose proof (requests_made_request params w) as Hreq.
    assert (Hnext : ∀ secs b,
       let w2 := sleep secs (emit (EvRequest params) w) in
       (requests_made (trace (retry_loop archive iata params rest b w2).2)
        ≤ requests_made (trace w) + length (attempt :: rest))%nat
       ∧ (requests_made (trace w)
          < requests_made (trace (retry_loop archive iata params rest b w2).2))%nat
       ∧ ((retry_loop archive iata params rest b w2).1 = Exhausted →
          requests_made (trace (retry_loop archive iata params rest b w2).2)
          = (requests_made (trace w) + length (attempt :: rest))%nat)).
    { intros secs b w2. destruct (IH b w2) as (H1 & _ & H3).
      pose proof (retry_loop_requests_mono iata params rest b w2) as Hmono.
      assert (Hw2 : requests_made (trace w2) = S (requests_made (trace w))).
      { subst w2. by rewrite requests_made_sleep, Hreq. }
      rewrite Hw2 in H1, H3, Hmono. cbn [length]. split_and!.
      - lia.
      - lia.
      - intros Hex. rewrite (H3 Hex). lia. }
    destruct (archive _ params) as [j| |].
    + destruct (j_daily j ≫= assoc "time") as [times|].
      * destruct (build_frame _ _ _).
        -- cbn [fst snd]. rewrite requests_made_sleep, Hreq. cbn [length].
           split_and!; [lia | lia | done].
        -- destruct (Hnext (2 + attempt) backoff) as (H1 & H2 & H3). by split_and!.
      * cbn [fst snd]. rewrite Hreq. cbn [length]. split_and!; [lia | lia | done].
    + destruct (Hnext (SLEEP_ON_429 + backoff) (backoff * 2)) as (H1 & H2 & H3). by split_and!.
    + destruct (Hnext (2 + attempt) backoff) as (H1 & H2 & H3). by split_and!.
Qed.

Lemma attempts_length : length (seqZ 1 RETRY_ATTEMPTS) = 6%nat.
Proof. reflexivity. Qed.

Lemma month_loop_requests_mono iata c months parts failed w :
  (requests_made (trace w)
   ≤ requests_made (trace (month_loop archive iata c months parts failed w).2))%nat.
Proof.
  destruct (month_loop_net archive iata c months parts failed w) as (_ & _ & evs & -> & _).
  rewrite requests_made_app. lia.
Qed.

Lemma month_loop_requests iata c months parts failed w :
  (requests_made (trace (month_loop archive iata c months parts failed w).2)
   ≤ requests_made (trace w) + 6 * length months)%nat
  ∧ (months ≠ [] →
     (requests_made (trace w)
      < requests_made (trace (month_loop archive iata c months parts failed w).2))%nat).
Proof.
  revert parts failed w. induction months as [|[sdate edate] rest IH]; intros parts failed w.
  - simpl. split; [lia | done].
  - rewrite month_loop_cons.
    destruct (retry_loop_requests iata (make_params c sdate edate)
                (seqZ 1 RETRY_ATTEMPTS) 1 w) as (H1 & H2 & _).
    rewrite attempts_length in H1. specialize (H2 ltac:(done)).
    destruct (retry_loop _ _ _ _ _ _) as [o w1]. cbn [fst snd] in H1, H2. cbn [length].
    destruct o as [dfw| |].
    + destruct (IH (parts ++ [dfw]) failed w1) as [H3 _].
      pose proof (month_loop_requests_mono iata c rest (parts ++ [dfw]) failed w1).
      split; [lia | intros _; lia].
    + destruct (IH parts true w1) as [H3 _].
      pose proof (month_loop_requests_mono iata c rest parts true w1).
      split; [lia | intros _; lia].
    + cbn [snd]. split; [lia | intros _; lia].
Qed.

Lemma months_2024_length : length (months_between START_DATE END_DATE) = 12%nat.
Proof. by rewrite months_2024. Qed.

Lemma requests_made_log row w :
  requests_made (trace (append_log row w)) = requests_made (trace w).
Proof. simpl. rewrite requests_made_app. unfold requests_made at 2. simpl. lia. Qed.

Lemma requests_made_write name rows w :
  requests_made (trace (write_cache name rows w)) = requests_made (trace w).
Proof. simpl. rewrite requests_made_app. unfold requests_made at 2. simpl. lia. Qed.

(** X3: a station that the registry does not know, or whose cache file
    exists, costs no request; any other station costs at least one
    request and at most 72 (six attempts for each of twelve months). *)
Theorem station_request_budget iata w :
  (ap !! iata = None ∨ is_Some (cache w !! cache_name iata) →
   requests_made (trace (process_station archive ap time_parses iata w)) = requests_made (trace w))
  ∧ (is_Some (ap !! iata) → cache w !! cache_name iata = None →
     (requests_made (trace w) < requests_made (trace (process_station archive ap time_parses iata w))
      ≤ requests_made (trace w) + 72)%nat).
Proof.
  split.
  - intros Hskip. destruct (ap !! iata) as [c|] eqn:Hc.
    + destruct Hskip as [?|Hcached]; [done|].
      rewrite process_station_cached by (rewrite ?Hc; eauto). apply requests_made_log.
    + rewrite process_station_unregistered by done. apply requests_made_log.
  - intros [c Hc] Hnone. rewrite (process_station_fetch archive ap time_parses iata c) by done.
    destruct (month_loop_requests iata c (months_between START_DATE END_DATE) [] false w)
      as [H1 H2].
    rewrite months_2024_length in H1.
    assert (Hne : months_between START_DATE END_DATE ≠ []).
    { intros Heq. pose proof months_2024_length as Hl. by rewrite Heq in Hl. }
    specialize (H2 Hne).
    destruct (month_loop _ _ _ _ _ _ _) as [[parts failed] w1]. cbn [snd] in H1, H2.
    destruct (bool_decide (parts ≠ []) && negb failed); [destruct (time_parses _)|].
    + rewrite requests_made_log, requests_made_write. lia.
    + lia.
    + rewrite requests_made_log. lia.
Qed.

Lemma station_requests_le iata w :
  (requests_made (trace (process_station archive ap time_parses iata w))
   ≤ requests_made (trace w) + 72)%nat.
Proof.
  destruct (ap !! iata) as [c|] eqn:Hc.
  2: { rewrite process_station_unregistered by done. rewrite requests_made_log. lia. }
  destruct (cache w !! cache_name iata) as [r|] eqn:Hr.
  { rewrite process_station_cached by (rewrite ?Hc, ?Hr; eauto).
    rewrite requests_made_log. lia. }
  rewrite (process_station_fetch archive ap time_parses iata c) by done.
  destruct (month_loop_requests iata c (months_between START_DATE END_DATE) [] false w)
    as [H1 _].
  rewrite months_2024_length in H1.
  destruct (month_loop _ _ _ _ _ _ _) as [[parts failed] w1]. cbn [snd] in H1.
  destruct (bool_decide (parts ≠ []) && negb failed); [destruct (time_parses _)|].
  - rewrite requests_made_log, requests_made_write. lia.
  - lia.
  - rewrite requests_made_log. lia.
Qed.

(** X4: whatever the archive answers, a run terminates within 72
    requests per pending station. *)
Theorem run_request_budget miss w :
  (requests_made (trace (resume archive ap time_parses miss w))
   ≤ requests_made (trace w) + 72 * length miss)%nat.
Proof.
  unfold resume.
  assert (Hprep : requests_made (trace (prepare_log w)) = requests_made (trace w)).
  { unfold prepare_log. by destruct (logfile w). }
  rewrite <- Hprep. generalize (prepare_log w). clear Hprep w.
  induction miss as [|iata miss IH]; intros w.
  - simpl. lia.
  - rewrite station_loop_cons. pose proof (station_requests_le iata w) as Hle.
    unfold process_station in Hle.
    destruct (station_body archive ap time_parses iata w) as [[|] w1]; cbn [snd] in Hle.
    + specialize (IH w1). cbn [length]. lia.
    + cbn [snd length]. lia.
Qed.

End FetchCost.

(** ** Stations that are served, and stations that are not *)

Section FetchPaths.

Variable archive : nat → Params → Response.
Variable ap : gmap string Coords.
Variable time_parses : list cell → bool.

(** A well-formed body ends the attempts at once. *)
Lemma retry_loop_served iata params attempt rest backoff w j :
  archive (requests_made (trace w)) params = Body j →
  well_formed iata j →
  ∃ dfw,
    retry_loop archive iata params (attempt :: rest) backoff w
    = (Fetched dfw, sleep SLEEP_BETWEEN_REQUESTS (emit (EvRequest params) w))
    ∧ p_iata dfw = iata.
Proof.
  intros Hj (times & dfw & Htime & Hdfw). exists dfw.
  cbn [retry_loop]. unfold safe_get. rewrite Hj, Htime, Hdfw. split; [done|].
  unfold build_frame in Hdfw. destruct (assign_columns _ _ _); [|done].
  by injection Hdfw as <-.
Qed.

Lemma month_loop_served iata c months parts failed w :
  (∀ n p, ∃ j, archive n p = Body j ∧ well_formed iata j) →
  ∃ fetched,
    month_loop archive iata c months parts failed w
    = (parts ++ fetched, failed,
       {| cache := cache w; logfile := logfile w;
          trace := trace w ++ concat (month_events c <$> months) |})
    ∧ length fetched = length months
    ∧ Forall (fun p => p_iata p = iata) fetched.
Proof.
  intros Hserved. revert parts w.
  induction months as [|[sdate edate] rest IH]; intros parts w.
  - exists []. simpl. rewrite !app_nil_r. split_and!; [by destruct w | done | done].
  - rewrite month_loop_cons.
    destruct (Hserved (requests_made (trace w)) (make_params c sdate edate)) as (j & Hj & Hwf).
    change (seqZ 1 RETRY_ATTEMPTS) with (1 :: seqZ 2 5).
    destruct (retry_loop_served iata _ 1 (seqZ 2 5) 1 w j Hj Hwf) as (dfw & -> & Hiata).
    destruct (IH (parts ++ [dfw])
                (sleep SLEEP_BETWEEN_REQUESTS (emit (EvRequest (make_params c sdate edate)) w)))
      as (fetched & -> & Hlen & Hall).
    exists (dfw :: fetched). split_and!.
    + simpl. rewrite <- !app_assoc. reflexivity.
    + simpl. by rewrite Hlen.
    + by constructor.
Qed.

Lemma concat_parts_iata iata parts :
  Forall (fun p => p_iata p = iata) parts →
  Forall (fun r => r_iata r = iata) (concat_parts parts).
Proof.
  intros Hall. unfold concat_parts. apply Forall_forall. intros r Hr.
  apply elem_of_concat in Hr as (rs & Hr & Hrs).
  apply list_elem_of_fmap in Hrs as (p & -> & Hp).
  rewrite Forall_forall in Hall. specialize (Hall p Hp).
  unfold part_rows in Hr. apply elem_of_lookup_imap in Hr as (i & t & -> & _). exact Hall.
Qed.

Lemma requests_made_month_events c months :
  requests_made (concat (month_events c <$> months)) = length months.
Proof.
  induction months as [|p rest IH]; [done|].
  rewrite fmap_cons. cbn [concat]. rewrite requests_made_app, IH. reflexivity.
Qed.

(** X5: when every answer of the archive is a well-formed body, a
    registered station without cache file is fetched with exactly
    twelve requests, one per month of 2024 in calendar order and each
    followed by the 4 s pause, into rows that all carry the station's
    code.  If the date conversion of line 133 reads their [time]
    column, the cache file is then written with these rows and the
    station's [ok] row is appended; if it raises, the script ends
    there: no file is written and no row appended. *)
Theorem station_served iata c w :
  ap !! iata = Some c →
  cache w !! cache_name iata = None →
  (∀ n p, ∃ j, archive n p = Body j ∧ well_formed iata j) →
  ∃ rows,
    Forall (fun r => r_iata r = iata) rows
    ∧ requests_made (trace (process_station archive ap time_parses iata w))
      = (requests_made (trace w) + 12)%nat
    ∧ if time_parses (r_time <$> rows) then
        station_flow archive ap time_parses iata w = Next
        ∧ process_station archive ap time_parses iata w
          = {| cache := <[cache_name iata := rows]> (cache w);
               logfile := Some (default [] (logfile w) ++ [[iata; "ok"; "salvo"]]);
               trace := trace w
                        ++ concat (month_events c <$> months_between START_DATE END_DATE)
                        ++ [EvWriteCache (cache_name iata) rows;
                            EvLog [iata; "ok"; "salvo"]] |}
      else
        station_flow archive ap time_parses iata w = Uncaught
        ∧ process_station archive ap time_parses iata w
          = {| cache := cache w;
               logfile := logfile w;
               trace := trace w
                        ++ concat (month_events c <$> months_between START_DATE END_DATE) |}.
Proof.
  intros Hc Hnone Hserved. unfold station_flow, process_station.
  rewrite (station_body_fetch archive ap time_parses iata c) by done.
  destruct (month_loop_served iata c (months_between START_DATE END_DATE) [] false w Hserved)
    as (fetched & -> & Hlen & Hall).
  rewrite months_2024_length in Hlen.
  assert (Hne : fetched ≠ []) by (intros ->; done).
  rewrite app_nil_l, bool_decide_true by done. cbn [andb negb].
  exists (concat_parts fetched). split; [by apply concat_parts_iata|].
  destruct (time_parses (r_time <$> concat_parts fetched)); cbn [fst snd].
  - split.
    + unfold append_log, write_cache. cbn [cache logfile trace].
      rewrite !requests_made_app, requests_made_month_events, months_2024_length.
      unfold requests_made at 2 3. simpl. lia.
    + split; [reflexivity|]. unfold append_log, write_cache. cbn [cache logfile trace].
      rewrite <- !app_assoc. reflexivity.
  - split; [|by split]. cbn [trace].
    by rewrite requests_made_app, requests_made_month_events, months_2024_length.
Qed.

(** Any other exception at every attempt uses the attempts up, pausing
    2 s plus the attempt number each time. *)
Lemma retry_loop_other_exceptions iata params attempts backoff w :
  (∀ n, raises_other iata (archive n params)) →
  retry_loop archive iata params attempts backoff w
  = (Exhausted,
     {| cache := cache w; logfile := logfile w;
        trace := trace w ++ linear_trace params attempts |}).
Proof.
  intros Hexc. revert w. induction attempts as [|attempt rest IH]; intros w.
  - simpl. rewrite app_nil_r. by destruct w.
  - cbn [retry_loop]. unfold safe_get.
    destruct (Hexc (requests_made (trace w))) as [->|(j & times & -> & -> & ->)];
      rewrite IH; simpl; rewrite <- !app_assoc; reflexivity.
Qed.

(** X6: a registered station without cache file whose requests all
    fail otherwise than by HTTP 429 (a failed request, or a body whose
    arrays do not fit one frame) is asked for six times, for January
    2024 only, with pauses of 3, 4, 5, 6, 7 and 8 seconds; then it is
    logged [failed] and no cache file is written. *)
Theorem station_other_exceptions iata c w :
  ap !! iata = Some c →
  cache w !! cache_name iata = None →
  (∀ n sdate edate, raises_other iata (archive n (make_params c sdate edate))) →
  let first := make_params c (Date.mk 2024 1 1) (Date.mk 2024 1 31) in
  let w' := process_station archive ap time_parses iata w in
  trace w'
  = trace w ++ [EvRequest first; EvSleep 3; EvRequest first; EvSleep 4;
                EvRequest first; EvSleep 5; EvRequest first; EvSleep 6;
                EvRequest first; EvSleep 7; EvRequest first; EvSleep 8;
                EvLog [iata; "failed"; "partial_or_429"]]
  ∧ logfile w' = Some (default [] (logfile w) ++ [[iata; "failed"; "partial_or_429"]])
  ∧ cache w' = cache w.
Proof.
  intros Hc Hnone Hexc first w'. subst w'.
  rewrite (process_station_fetch archive ap time_parses iata c) by done.
  destruct months_2024_first as [rest ->].
  rewrite month_loop_cons, retry_loop_other_exceptions by (intros n; apply Hexc).
  change (seqZ 1 RETRY_ATTEMPTS) with [1; 2; 3; 4; 5; 6]. simpl.
  split_and!; [by rewrite <- app_assoc | done | done].
Qed.

(** The pauses of attempts answered 429: 60 s plus a term that doubles. *)
Lemma sleeps_backoff_trace params attempts backoff :
  sleeps (backoff_trace params attempts backoff)
  = (fun i => SLEEP_ON_429 + backoff * 2 ^ Z.of_nat i) <$> seq 0 (length attempts).
Proof.
  revert backoff. induction attempts as [|a rest IH]; intros backoff; [done|].
  cbn [backoff_trace length seq fmap list_fmap]. unfold sleeps in *. cbn [omap list_omap].
  fold (sleeps (backoff_trace params rest (backoff * 2))). unfold sleeps. rewrite IH.
  f_equal; [f_equal; simpl; lia|].
  rewrite <- (fmap_S_seq 0), <- list_fmap_compose. apply list_fmap_ext.
  intros _ i _. simpl. f_equal. rewrite Nat2Z.inj_succ, Z.pow_succ_r by lia. lia.
Qed.

(** After [k] attempts answered 429 a well-formed body is accepted. *)
Lemma retry_loop_recovers iata params pre attempt post backoff w j :
  (∀ i, (i < length pre)%nat → archive (requests_made (trace w) + i)%nat params = RateLimited) →
  archive (requests_made (trace w) + length pre)%nat params = Body j →
  well_formed iata j →
  ∃ dfw,
    retry_loop archive iata params (pre ++ attempt :: post) backoff w
    = (Fetched dfw,
       {| cache := cache w; logfile := logfile w;
          trace := trace w ++ backoff_trace params pre backoff
                   ++ [EvRequest params; EvSleep SLEEP_BETWEEN_REQUESTS] |}).
Proof.
  revert backoff w. induction pre as [|a pre IH]; intros backoff w Hrl Hj Hwf.
  - simpl in Hj. rewrite Nat.add_0_r in Hj.
    destruct (retry_loop_served iata params attempt post backoff w j Hj Hwf) as (dfw & H & _).
    exists dfw. cbn [app backoff_trace]. rewrite H. unfold sleep, emit. cbn [cache logfile trace].
    by rewrite <- app_assoc.
  - cbn [app retry_loop]. unfold safe_get.
    pose proof (Hrl 0%nat ltac:(simpl; lia)) as H0. rewrite Nat.add_0_r in H0. rewrite H0.
    set (w2 := sleep (SLEEP_ON_429 + backoff) (emit (EvRequest params) w)).
    assert (Hw2 : requests_made (trace w2) = S (requests_made (trace w))).
    { subst w2. simpl. rewrite !requests_made_app. unfold requests_made at 2 3. simpl. lia. }
    destruct (IH (backoff * 2) w2) as (dfw & ->).
    + intros i Hi. rewrite Hw2. replace (S (requests_made (trace w)) + i)%nat
        with (requests_made (trace w) + S i)%nat by lia. apply Hrl. simpl. lia.
    + rewrite Hw2. replace (S (requests_made (trace w)) + length pre)%nat
        with (requests_made (trace w) + length (a :: pre))%nat by (simpl; lia). exact Hj.
    + exact Hwf.
    + exists dfw. subst w2. simpl. rewrite <- !app_assoc. reflexivity.
Qed.

(** X7: a period whose first [k] requests ([k] at most five) are
    answered 429 and whose next request gets a well-formed body is
    fetched with [k + 1] requests: the pauses after the rejected ones
    are 61, 62, 64, ... seconds (60 plus a term doubling from 1), and
    the body is followed by the 4 s pause.  No file is touched. *)
Theorem period_recovers_after_rate_limit iata params (k : nat) w j :
  (k < 6)%nat →
  (∀ i, (i < k)%nat → archive (requests_made (trace w) + i)%nat params = RateLimited) →
  archive (requests_made (trace w) + k)%nat params = Body j →
  well_formed iata j →
  ∃ dfw w',
    retry_loop archive iata params (seqZ 1 RETRY_ATTEMPTS) 1 w = (Fetched dfw, w')
    ∧ cache w' = cache w ∧ logfile w' = logfile w
    ∧ requests_made (trace w') = (requests_made (trace w) + k + 1)%nat
    ∧ ∃ evs, trace w' = trace w ++ evs
        ∧ sleeps evs
          = ((fun i => 60 + 2 ^ Z.of_nat i) <$> seq 0 k) ++ [SLEEP_BETWEEN_REQUESTS].
Proof.
  intros Hk Hrl Hj Hwf.
  assert (Hsplit : ∃ pre attempt post,
             seqZ 1 RETRY_ATTEMPTS = pre ++ attempt :: post ∧ length pre = k).
  { change (seqZ 1 RETRY_ATTEMPTS) with [1; 2; 3; 4; 5; 6].
    destruct k as [|[|[|[|[|[|k]]]]]]; [| | | | | |lia].
    - by exists [], 1, [2; 3; 4; 5; 6].
    - by exists [1], 2, [3; 4; 5; 6].
    - by exists [1; 2], 3, [4; 5; 6].
    - by exists [1; 2; 3], 4, [5; 6].
    - by exists [1; 2; 3; 4], 5, [6].
    - by exists [1; 2; 3; 4; 5], 6, []. }
  destruct Hsplit as (pre & attempt & post & -> & Hlen). subst k.
  destruct (retry_loop_recovers iata params pre attempt post 1 w j Hrl Hj Hwf) as (dfw & ->).
  eexists _, _. split; [reflexivity|]. cbn [cache logfile trace]. split_and!; [done | done | |].
  - rewrite !requests_made_app.
    assert (Hb : ∀ l b, requests_made (backoff_trace params l b) = length l).
    { induction l as [|a l IHl]; intros b; [done|].
      cbn [backoff_trace length].
      change (EvRequest params :: EvSleep (SLEEP_ON_429 + b) :: backoff_trace params l (b * 2))
        with ([EvRequest params; EvSleep (SLEEP_ON_429 + b)] ++ backoff_trace params l (b * 2)).
      rewrite requests_made_app, IHl. reflexivity. }
    rewrite Hb. unfold requests_made at 2. simpl. lia.
  - eexists. split; [reflexivity|].
    unfold sleeps. rewrite omap_app. fold (sleeps (backoff_trace params pre 1)).
    rewrite sleeps_backoff_trace. simpl. f_equal.
    apply list_fmap_ext. intros _ i _. unfold SLEEP_ON_429. lia.
Qed.

(** ** Cache files *)

Lemma process_station_keeps_file iata w name rows :
  cache w !! name = Some rows →
  cache (process_station archive ap time_parses iata w) !! name = Some rows.
Proof.
  intros Hfile. destruct (ap !! iata) as [c|] eqn:Hc.
  2: { by rewrite process_station_unregistered. }
  destruct (cache w !! cache_name iata) as [r|] eqn:Hr.
  { rewrite process_station_cached by (rewrite ?Hc, ?Hr; eauto). done. }
  rewrite (process_station_fetch archive ap time_parses iata c) by done.
  pose proof (month_loop_net archive iata c (months_between START_DATE END_DATE) [] false w) as Hn.
  destruct (month_loop _ _ _ _ _ _ _) as [[parts failed] w1].
  destruct Hn as (Hcache & _). cbn [snd] in Hcache.
  destruct (bool_decide (parts ≠ []) && negb failed); [destruct (time_parses _)|];
    cbn [append_log write_cache cache].
  - rewrite Hcache, lookup_insert_ne; [done|]. intros <-. congruence.
  - by rewrite Hcache.
  - by rewrite Hcache.
Qed.

(** X8: a run never removes or rewrites a cache file: whatever the
    cache directory held before the run, it holds afterwards, with the
    same content. *)
Theorem run_keeps_cache_files miss w name rows :
  cache w !! name = Some rows →
  cache (resume archive ap time_parses miss w) !! name = Some rows.
Proof.
  unfold resume. intros Hfile.
  assert (Hprep : cache (prepare_log w) !! name = Some rows).
  { unfold prepare_log. by destruct (logfile w). }
  revert Hprep. generalize (prepare_log w). clear Hfile w.
  induction miss as [|iata miss IH]; intros w Hfile; [done|].
  rewrite station_loop_cons.
  pose proof (process_station_keeps_file iata w name rows Hfile) as Hkept.
  unfold process_station in Hkept.
  destruct (station_body archive ap time_parses iata w) as [[|] w1]; cbn [snd] in Hkept.
  - by apply IH.
  - exact Hkept.
Qed.

(** X9: a station's audit row is [ok] exactly when its processing
    created its cache file: the file was missing before and is there
    afterwards. *)
Theorem ok_row_iff_cache_file_created iata w :
  logfile (process_station archive ap time_parses iata w)
  = Some (default [] (logfile w) ++ [[iata; "ok"; "salvo"]])
  ↔ cache w !! cache_name iata = None
    ∧ is_Some (cache (process_station archive ap time_parses iata w) !! cache_name iata).
Proof.
  assert (Hrow : ∀ (l : list (list string)) r1 r2, Some (l ++ [r1]) = Some (l ++ [r2]) → r1 = r2).
  { intros l r1 r2 H. injection H as H. apply app_inv_head in H. by injection H. }
  destruct (ap !! iata) as [c|] eqn:Hc.
  2: { rewrite process_station_unregistered by done. cbn [append_log logfile cache]. split.
       - intros H. apply Hrow in H. discriminate.
       - intros [Hnone [r Hr]]. congruence. }
  destruct (cache w !! cache_name iata) as [r|] eqn:Hr.
  { rewrite process_station_cached by (rewrite ?Hc, ?Hr; eauto).
    cbn [append_log logfile cache]. split.
    - intros H. apply Hrow in H. discriminate.
    - intros [Hnone _]. discriminate. }
  rewrite (process_station_fetch archive ap time_parses iata c) by done.
  pose proof (month_loop_net archive iata c (months_between START_DATE END_DATE) [] false w) as Hn.
  destruct (month_loop _ _ _ _ _ _ _) as [[parts failed] w1].
  destruct Hn as (Hcache & Hlog & _). cbn [snd] in Hcache, Hlog.
  destruct (bool_decide (parts ≠ []) && negb failed); [destruct (time_parses _)|];
    cbn [append_log write_cache logfile cache].
  - rewrite Hlog, lookup_insert_eq. split; [eauto | done].
  - rewrite Hlog, Hcache, Hr. split.
    + intros H. by apply log_grows in H.
    + intros [_ [? ?]]. discriminate.
  - rewrite Hlog, Hcache, Hr. split.
    + intros H. apply Hrow in H. discriminate.
    + intros [_ [? ?]]. discriminate.
Qed.

End FetchPaths.

(** ** The pending list *)

Lemma upper_ascii_idem a : Py.upper_ascii (Py.upper_ascii a) = Py.upper_ascii a.
Proof. destruct a as [[] [] [] [] [] [] [] []]; reflexivity. Qed.

Lemma upper_idem s : Py.upper (Py.upper s) = Py.upper s.
Proof. induction s as [|a s IH]; [done|]. simpl. by rewrite upper_ascii_idem, IH. Qed.

Lemma truthy_upper s : Py.truthy s = true → Py.upper s ≠ "".
Proof. by destruct s. Qed.

Lemma truthy_nonempty s : Py.truthy s = true ↔ s ≠ "".
Proof. destruct s; simpl; split; congruence. Qed.

(** X10: the pending codes are read line by line, in order: a line
    that is blank after trimming gives no code, any other line gives its
    trimmed text in upper case.  So no code is empty and none has a
    lower-case letter left, and there are at most as many codes as
    lines. *)
Theorem read_missing_codes lines :
  (∀ code, code ∈ read_missing lines
           ↔ ∃ l, l ∈ lines ∧ Py.strip l ≠ "" ∧ code = Py.upper (Py.strip l))
  ∧ Forall (fun code => code ≠ "" ∧ Py.upper code = code) (read_missing lines)
  ∧ (length (read_missing lines) ≤ length lines)%nat
  ∧ (∀ more, read_missing (lines ++ more) = read_missing lines ++ read_missing more).
Proof.
  unfold read_missing. split_and!.
  - intros code. rewrite list_elem_of_fmap. split.
    + intros (l & -> & Hl). apply list_elem_of_filter in Hl as [Ht Hl].
      exists l. split_and!; [done | by apply truthy_nonempty | done].
    + intros (l & Hl & Hne & ->). exists l. split; [done|].
      apply list_elem_of_filter. split; [by apply truthy_nonempty | done].
  - apply Forall_forall. intros code Hcode.
    apply list_elem_of_fmap in Hcode as (l & -> & Hl).
    apply list_elem_of_filter in Hl as [Ht _].
    split; [by apply truthy_upper | apply upper_idem].
  - rewrite length_fmap. apply length_filter.
  - intros more. by rewrite filter_app, fmap_app.
Qed.

(** * Further properties of the join engine *)

Section JoinMore.

Variable to_datetime : bool → string → option date.

(** ** Which stations are found *)

Lemma found_stations selected dir iata :
  iata ∈ (read_and_stack_weather to_datetime selected dir).2
  ↔ iata ∈ selected
    ∧ ∃ w, dir !! weather_name iata = Some w
           ∧ ("time" ∈ columns w ∨ "date" ∈ columns w).
Proof.
  assert (Hfound : (read_and_stack_weather to_datetime selected dir).2
                   = (load_all to_datetime selected dir).*1).
  { unfold read_and_stack_weather. by destruct (load_all to_datetime selected dir). }
  rewrite Hfound, list_elem_of_fmap. unfold load_all. split.
  - intros ([s fr] & -> & Hin). apply list_elem_of_omap in Hin as (s' & Hs' & Hload).
    destruct (dir !! weather_name s') as [w|] eqn:Hw; [|done]. simpl in Hload.
    unfold load_weather in Hload.
    destruct (bool_decide ("time" ∈ columns w)) eqn:Ht.
    + injection Hload as <- _. simpl. split; [done|]. exists w. split; [done|].
      left. by apply bool_decide_eq_true in Ht.
    + destruct (bool_decide ("date" ∈ columns w)) eqn:Hd; [|done].
      injection Hload as <- _. simpl. split; [done|]. exists w. split; [done|].
      right. by apply bool_decide_eq_true in Hd.
  - intros (Hsel & w & Hw & Hcol).
    assert (Hload : is_Some (load_weather to_datetime iata (weather_name iata) w)).
    { unfold load_weather. destruct Hcol as [Ht|Hd].
      - rewrite (bool_decide_true _ Ht). eauto.
      - case_bool_decide; [eauto|]. rewrite (bool_decide_true _ Hd). eauto. }
    destruct Hload as [fr Hfr]. exists (iata, fr). split; [done|].
    apply list_elem_of_omap. exists iata. split; [done|]. rewrite Hw. simpl. by rewrite Hfr.
Qed.

Lemma main_missing_orig flights dir :
  out_missing_orig (main to_datetime flights dir)
  = missing_origins SELECTED (read_and_stack_weather to_datetime SELECTED dir).2.
Proof.
  destruct (read_and_stack_weather to_datetime SELECTED dir) as [wa found] eqn:Hread.
  destruct (decide (rows wa = [])) as [Hrows|Hrows].
  - by rewrite (main_without_weather to_datetime flights dir wa found Hread Hrows).
  - by rewrite (main_with_weather to_datetime flights dir wa found Hread Hrows).
Qed.

(** X11: missing-origins lists exactly the stations of the allow-list
    that have no usable weather file: no file at all, or a file that has
    neither a [time] nor a [date] column.  The list is in ascending
    order and has no station twice. *)
Theorem missing_origins_listed flights dir :
  (∀ iata, iata ∈ out_missing_orig (main to_datetime flights dir)
           ↔ iata ∈ SELECTED
             ∧ (dir !! weather_name iata = None
                ∨ ∃ w, dir !! weather_name iata = Some w
                       ∧ ("time" ∉ columns w) ∧ ("date" ∉ columns w)))
  ∧ Sorted String.le (out_missing_orig (main to_datetime flights dir))
  ∧ NoDup (out_missing_orig (main to_datetime flights dir)).
Proof.
  rewrite main_missing_orig. split_and!.
  - intros iata. rewrite missing_origins_spec, found_stations. split.
    + intros [Hsel Hnot]. split; [done|].
      destruct (dir !! weather_name iata) as [w|] eqn:Hw; [|by left].
      right. exists w. split; [done|]. split; intros Hcol; apply Hnot; eauto.
    + intros [Hsel Hfile]. split; [done|]. intros (_ & w & Hw & Hcol).
      destruct Hfile as [Hnone|(w' & Hw' & Ht & Hd)]; [congruence|].
      assert (w' = w) as -> by congruence. tauto.
  - unfold missing_origins. apply Sorted_merge_sort. apply _.
  - unfold missing_origins. rewrite (merge_sort_Permutation String.le).
    apply NoDup_remove_dups.
Qed.

(** ** De-duplication *)

Lemma drop_duplicates_from_sublist seen l : drop_duplicates_from seen l `sublist_of` l.
Proof.
  revert seen. induction l as [|r rest IH]; intros seen; simpl; [constructor|].
  case_bool_decide; [apply sublist_cons | apply sublist_skip]; apply IH.
Qed.

Lemma drop_duplicates_from_keys seen l :
  NoDup (weather_key <$> drop_duplicates_from seen l)
  ∧ ∀ k, k ∈ weather_key <$> drop_duplicates_from seen l → k ∉ seen.
Proof.
  revert seen. induction l as [|r rest IH]; intros seen; simpl.
  - split; [constructor | intros k Hk; by apply elem_of_nil in Hk].
  - case_bool_decide as Hseen; [apply IH|].
    destruct (IH (weather_key r :: seen)) as [Hnd Hfresh]. rewrite fmap_cons. split.
    + constructor; [|done]. intros Hin. apply (Hfresh _ Hin), elem_of_cons. by left.
    + intros k Hk. apply elem_of_cons in Hk as [->|Hk]; [done|].
      intros Hin. apply (Hfresh _ Hk), elem_of_cons. by right.
Qed.

Lemma drop_duplicates_from_id seen l :
  NoDup (weather_key <$> l) → (∀ r, r ∈ l → weather_key r ∉ seen) →
  drop_duplicates_from seen l = l.
Proof.
  revert seen. induction l as [|r rest IH]; intros seen Hnd Hfresh; [done|].
  simpl. rewrite fmap_cons in Hnd. apply NoDup_cons in Hnd as [Hr Hnd].
  rewrite bool_decide_false by (apply Hfresh, elem_of_cons; by left).
  f_equal. apply IH; [done|]. intros r' Hr' Hin.
  apply elem_of_cons in Hin as [Heq|Hin].
  - apply Hr. rewrite <- Heq. by apply list_elem_of_fmap_2.
  - apply (Hfresh r'); [apply elem_of_cons; by right | done].
Qed.

(** X12: de-duplication keeps the rows in their order, dropping some;
    what it keeps has no key twice; a table without repeated keys is
    left as it is; and de-duplicating twice changes nothing more. *)
Theorem drop_duplicates_properties l :
  drop_duplicates l `sublist_of` l
  ∧ NoDup (weather_key <$> drop_duplicates l)
  ∧ (NoDup (weather_key <$> l) → drop_duplicates l = l)
  ∧ drop_duplicates (drop_duplicates l) = drop_duplicates l.
Proof.
  unfold drop_duplicates.
  pose proof (drop_duplicates_from_keys [] l) as [Hnd _]. split_and!.
  - apply drop_duplicates_from_sublist.
  - exact Hnd.
  - intros Hl. apply drop_duplicates_from_id; [done|]. intros r _. apply not_elem_of_nil.
  - apply drop_duplicates_from_id; [done|]. intros r _. apply not_elem_of_nil.
Qed.

(** ** Matched and missing rows add up *)

Lemma length_filter_bool {A} (f : A → bool) (l : list A) :
  (length (filter (fun x => f x = true) l) + length (filter (fun x => f x = false) l)
   = length l)%nat.
Proof.
  induction l as [|a l IH]; [done|]. destruct (f a) eqn:Hf.
  - rewrite (filter_cons_True (fun x => f x = true)) by done.
    rewrite (filter_cons_False (fun x => f x = false)) by congruence. simpl. lia.
  - rewrite (filter_cons_False (fun x => f x = true)) by congruence.
    rewrite (filter_cons_True (fun x => f x = false)) by done. simpl. lia.
Qed.

(** X13: when weather was loaded, the flights counted as matched and
    the rows of missing-matches account for every selected flight: the
    two numbers add up to the number of merged rows, which is the
    number of flights of allow-listed origins. *)
Theorem matched_and_missing_add_up flights dir :
  let wa := (read_and_stack_weather to_datetime SELECTED dir).1 in
  let out := main to_datetime flights dir in
  rows wa ≠ [] →
  ∃ missing,
    out_missing_matches out = Some missing
    ∧ (n_matched (columns wa) (out_merged out) + length missing
       = length (out_merged out))%nat
    ∧ length (out_merged out) = length (select_flights to_datetime flights).
Proof.
  intros wa out Hrows. subst wa out.
  destruct (read_and_stack_weather to_datetime SELECTED dir) as [wa found] eqn:Hread.
  simpl in Hrows |- *.
  rewrite (main_with_weather to_datetime flights dir wa found Hread Hrows). simpl.
  eexists. split; [reflexivity|]. split.
  - unfold n_matched. apply length_filter_bool.
  - by rewrite !length_fmap.
Qed.

(** ** No weather at all *)

Lemma load_all_nothing selected dir :
  (∀ iata, iata ∈ selected → dir !! weather_name iata = None) →
  load_all to_datetime selected dir = [].
Proof.
  intros Hnone. unfold load_all. induction selected as [|s rest IH]; [done|].
  simpl. rewrite (Hnone s) by (apply elem_of_cons; by left). simpl.
  apply IH. intros iata Hin. apply Hnone, elem_of_cons. by right.
Qed.

(** X14: with no weather file for any station of the allow-list, the
    merged output is the selected flights as they are, nothing joined
    and the canonical dates untouched; missing-origins is the whole
    allow-list in ascending order; and missing-matches is not
    written. *)
Theorem main_without_any_weather_file flights dir :
  (∀ iata, iata ∈ SELECTED → dir !! weather_name iata = None) →
  main to_datetime flights dir
  = {| out_merged :=
         (fun f => {| m_flight := f; m_weather := None |}) <$> select_flights to_datetime flights;
       out_missing_orig :=
         ["ALB"; "ANC"; "ATL"; "BOS"; "DEN"; "HNL"; "IAH"; "JFK"; "LAS"; "LAX";
          "MIA"; "MSP"; "MSY"; "ORD"; "PHL"; "PHX"; "SEA"; "SFO"; "SJU"; "SLC"];
       out_missing_matches := None |}.
Proof.
  intros Hnone.
  assert (Hread : read_and_stack_weather to_datetime SELECTED dir
                  = ({| columns := ["iata"; "date_str"]; rows := [] |}, [])).
  { unfold read_and_stack_weather. by rewrite (load_all_nothing SELECTED dir Hnone). }
  rewrite (main_without_weather to_datetime flights dir _ _ Hread eq_refl).
  f_equal.
Qed.

(** ** The header of the flight table *)

Lemma elem_of_rename c old new cols :
  c ∈ rename old new cols ↔ (c ≠ old ∧ c ∈ cols) ∨ (c = new ∧ old ∈ cols).
Proof.
  unfold rename. rewrite list_elem_of_fmap. split.
  - intros (x & -> & Hx). case_bool_decide as Hold.
    + right. by subst x.
    + left. done.
  - intros [[Hne Hc]|[-> Hold]].
    + exists c. by rewrite bool_decide_false.
    + exists old. by rewrite bool_decide_true.
Qed.

Lemma elem_of_add_column_iff c c' cols : c ∈ add_column c' cols ↔ c = c' ∨ c ∈ cols.
Proof.
  unfold add_column. case_bool_decide as Hin.
  - split; [by right | by intros [->|?]].
  - rewrite elem_of_app, elem_of_cons, elem_of_nil. tauto.
Qed.

(** X15: the flight table is refused with a [KeyError] exactly when it
    has neither an [fl_date] nor a [flight_date] column, or has a date
    column but no [origin] column; the missing date column is reported
    first.  A table that is accepted ends up with the columns
    [flight_date], [flight_date_parsed], [flight_date_str] and [origin]. *)
Theorem normalize_header_errors cols :
  (normalize_header cols = inl NoDateColumn
   ↔ ("fl_date" ∉ cols) ∧ ("flight_date" ∉ cols))
  ∧ (normalize_header cols = inl NoOriginColumn
     ↔ ("fl_date" ∈ cols ∨ "flight_date" ∈ cols) ∧ ("origin" ∉ cols))
  ∧ (∀ cols', normalize_header cols = inr cols' →
       "flight_date" ∈ cols' ∧ "flight_date_parsed" ∈ cols'
       ∧ "flight_date_str" ∈ cols' ∧ "origin" ∈ cols').
Proof.
  unfold normalize_header. case_bool_decide as Hdate.
  { split_and!; [tauto | | done]. split; [done | tauto]. }
  assert (Hhas : "fl_date" ∈ cols ∨ "flight_date" ∈ cols).
  { destruct (decide ("fl_date" ∈ cols)); [tauto|].
    destruct (decide ("flight_date" ∈ cols)); tauto. }
  set (cols1 := if bool_decide ("flight_date" ∉ cols)
                then rename "fl_date" "flight_date" cols else cols).
  assert (Hfd : "flight_date" ∈ cols1).
  { subst cols1. case_bool_decide as Hfd.
    - apply elem_of_rename. right. split; [done | tauto].
    - destruct (decide ("flight_date" ∈ cols)); tauto. }
  assert (Horigin : "origin" ∈ cols1 ↔ "origin" ∈ cols).
  { subst cols1. case_bool_decide; [|done]. rewrite elem_of_rename.
    split; [intros [[_ ?]|[? _]]; done | intros ?; left; done]. }
  set (cols2 := add_column "flight_date_str" (add_column "flight_date_parsed" cols1)).
  assert (H2 : ∀ c, c ∈ cols2 ↔ c = "flight_date_str" ∨ c = "flight_date_parsed" ∨ c ∈ cols1).
  { intros c. subst cols2. by rewrite !elem_of_add_column_iff. }
  assert (Horigin2 : "origin" ∈ cols2 ↔ "origin" ∈ cols).
  { rewrite H2, Horigin. split; [intros [?|[?|?]]; done | tauto]. }
  case_bool_decide as Ho.
  { split_and!; [split; [done | tauto] | | done]. split; [tauto | done]. }
  assert (Hin : "origin" ∈ cols2) by (destruct (decide ("origin" ∈ cols2)); tauto).
  split_and!; [split; [done | tauto] | split; [done | tauto] |].
  intros cols' Heq. injection Heq as <-.
  assert (Hkeep : ∀ c, c ≠ "dep_time" → c ∈ cols2 →
            c ∈ (if bool_decide ("dep_time" ∈ cols2 ∧ "dep_time_raw" ∉ cols2)
                 then rename "dep_time" "dep_time_raw" cols2 else cols2)).
  { intros c Hne Hc. case_bool_decide; [|done]. apply elem_of_rename. by left. }
  split_and!; apply Hkeep; try done; apply H2; tauto.
Qed.

End JoinMore.

(** ** Where a stacked weather row comes from *)

Lemma selected_codes_normalised :
  Forall (fun s => Py.upper (Py.strip s) = s) SELECTED.
Proof. repeat constructor. Qed.

Section JoinProvenance.

Variable to_datetime : bool → string → option date.

Lemma stacked_row_origin selected dir r :
  Forall (fun s => Py.upper (Py.strip s) = s) selected →
  r ∈ rows (read_and_stack_weather to_datetime selected dir).1 →
  ∃ s w raw,
    s ∈ (read_and_stack_weather to_datetime selected dir).2
    ∧ dir !! weather_name s = Some w
    ∧ raw ∈ rows w
    ∧ r !! "source_file" = Some (weather_name s)
    ∧ ("iata" ∉ columns w → r !! "iata" = Some s)
    ∧ (∀ c, c ≠ "iata" → c ≠ "date_str" → c ≠ "source_file" → r !! c = raw !! c).
Proof.
  intros Hnorm. rewrite stacked_rows. intros H.
  apply list_elem_of_fmap in H as (r0 & -> & H).
  apply elem_of_concat in H as (rs & Hr0 & Hrs).
  apply list_elem_of_fmap in Hrs as ([iata fr] & -> & Hfr).
  cbn [snd] in Hr0.
  assert (Hfound : iata ∈ (read_and_stack_weather to_datetime selected dir).2).
  { assert (Heq : (read_and_stack_weather to_datetime selected dir).2
                  = (load_all to_datetime selected dir).*1).
    { unfold read_and_stack_weather. by destruct (load_all to_datetime selected dir). }
    rewrite Heq. apply list_elem_of_fmap. by exists (iata, fr). }
  unfold load_all in Hfr. apply list_elem_of_omap in Hfr as (s & Hsel & Hfr).
  destruct (dir !! weather_name s) as [w|] eqn:Hw; [|done]. cbn [mbind option_bind] in Hfr.
  destruct (load_weather to_datetime s (weather_name s) w) as [fr'|] eqn:Hload; [|done].
  cbn [fmap option_fmap option_map] in Hfr. injection Hfr as <- <-.
  unfold load_weather in Hload.
  destruct (if bool_decide ("time" ∈ columns w) then _ else _) as [dc|]; [|done].
  injection Hload as <-. cbn [rows] in Hr0.
  apply list_elem_of_fmap in Hr0 as (raw & -> & Hraw).
  rewrite Forall_forall in Hnorm. specialize (Hnorm s Hsel).
  clear Hsel.
  exists s, w, raw. split_and!; [done..| | |].
  - unfold normalize_iata, date_str_as_text.
    rewrite lookup_insert_ne by done. rewrite lookup_insert_ne by done.
    by rewrite lookup_insert_eq.
  - intros Hno. rewrite (bool_decide_false _ Hno).
    unfold normalize_iata at 1. rewrite lookup_insert_eq. f_equal.
    unfold date_str_as_text. rewrite lookup_insert_ne by done.
    rewrite lookup_insert_ne by done.
    unfold normalize_iata. rewrite lookup_insert_eq.
    rewrite lookup_insert_eq. unfold Py.astype_str. cbn [default id].
    by rewrite !Hnorm.
  - intros c Hi Hd Hs.
    unfold normalize_iata at 1. rewrite lookup_insert_ne by done.
    unfold date_str_as_text. rewrite lookup_insert_ne by done.
    rewrite lookup_insert_ne by done.
    unfold normalize_iata. rewrite lookup_insert_ne by done.
    assert (Hassign : ∀ v, assign "date_str" v raw !! c = raw !! c).
    { intros [v|]; unfold assign; [by rewrite lookup_insert_ne | by rewrite lookup_delete_ne]. }
    case_bool_decide; [apply Hassign|].
    rewrite lookup_insert_ne by done. apply Hassign.
Qed.

(** X16: every row of the stacked weather table comes from the file of
    a found station of the allow-list: its [source_file] is that file's
    name, its cells outside [iata], [date_str] and [source_file] are
    those of a row of the file, and when the file has no [iata] column
    the row is keyed by the station the file is named after. *)
Theorem stacked_row_provenance dir r :
  r ∈ rows (read_and_stack_weather to_datetime SELECTED dir).1 →
  ∃ s w raw,
    s ∈ (read_and_stack_weather to_datetime SELECTED dir).2
    ∧ dir !! weather_name s = Some w
    ∧ raw ∈ rows w
    ∧ r !! "source_file" = Some (weather_name s)
    ∧ ("iata" ∉ columns w → r !! "iata" = Some s)
    ∧ (∀ c, c ≠ "iata" → c ≠ "date_str" → c ≠ "source_file" → r !! c = raw !! c).
Proof. apply stacked_row_origin, selected_codes_normalised. Qed.

(** ** The order of the merged rows *)

Lemma filter_imap_lines {A} (mk : nat → A → Flight) (P : Flight → Prop)
    `{!∀ f, Decision (P f)} (l : list A) (k : nat) :
  (∀ j a, line (mk j a) = (k + j)%nat) →
  StronglySorted lt (line <$> filter P (imap mk l))
  ∧ Forall (fun n => (k ≤ n)%nat) (line <$> filter P (imap mk l)).
Proof.
  revert mk k. induction l as [|x l IH]; intros mk k Hline.
  { split; constructor. }
  rewrite imap_cons.
  destruct (IH (mk ∘ S) (S k)) as [Hs Hb].
  { intros j a. simpl. rewrite Hline. lia. }
  destruct (decide (P (mk 0%nat x))) as [HP|HP].
  - rewrite filter_cons_True by done. rewrite fmap_cons. split.
    + constructor; [done|]. rewrite Hline.
      eapply Forall_impl; [exact Hb|]. intros n Hn. simpl in Hn. lia.
    + constructor; [rewrite Hline; lia|].
      eapply Forall_impl; [exact Hb|]. intros n Hn. simpl in Hn. lia.
  - rewrite filter_cons_False by done. split; [done|].
    eapply Forall_impl; [exact Hb|]. intros n Hn. simpl in Hn. lia.
Qed.

(** X17: the merged output keeps the order of the flight file: the
    positions its rows had in the input are strictly increasing, with
    and without weather. *)
Theorem merged_rows_in_input_order flights dir :
  StronglySorted lt
    ((fun m => line (m_flight m)) <$> out_merged (main to_datetime flights dir)).
Proof.
  rewrite main_merged, <- list_fmap_compose.
  rewrite (list_fmap_ext _ line).
  2:{ intros _ f _. simpl. apply join_row_flight. }
  unfold select_flights, normalize_flight_dates_and_origin.
  rewrite <- list_fmap_compose. rewrite (list_fmap_ext _ line).
  2:{ intros _ f _. reflexivity. }
  apply (filter_imap_lines (normalize_row to_datetime) (fun f => origin f ∈ SELECTED)
           flights 0%nat).
  intros j a. reflexivity.
Qed.

End JoinProvenance.

(** * The inventory of the cache directory *)

Import Inventory.

Lemma lower_mapping_snoc cols c :
  lower_mapping (cols ++ [c]) = <[lower c := c]> (lower_mapping cols).
Proof. unfold lower_mapping. by rewrite foldl_app. Qed.

(** The column kept for a lower-cased name is the last one that has it. *)
Lemma lower_mapping_lookup cols k :
  lower_mapping cols !! k = last (filter (fun c => lower c = k) cols).
Proof.
  induction cols as [|c cols IH] using rev_ind; [done|].
  rewrite lower_mapping_snoc, filter_app.
  destruct (decide (lower c = k)) as [Hk|Hk].
  - rewrite filter_cons_True, filter_nil by done. rewrite last_snoc.
    subst k. by rewrite lookup_insert_eq.
  - rewrite filter_cons_False, filter_nil by done. rewrite app_nil_r.
    by rewrite lookup_insert_ne.
Qed.

(** X18: [find_column] answers with a column of the table whose
    lower-cased name is one of the candidates, the last column of that
    lower-cased name; and it answers [None] exactly when no column's
    lower-cased name is a candidate.  This holds in whatever order the
    candidate set is gone through. *)
Theorem find_column_spec cols candidates :
  (∀ c, find_column cols candidates = Some c →
        c ∈ cols ∧ lower c ∈ candidates
        ∧ last (filter (fun c' => lower c' = lower c) cols) = Some c)
  ∧ (find_column cols candidates = None ↔ ∀ c, c ∈ cols → lower c ∉ candidates).
Proof.
  unfold find_column. split.
  - intros c Hc. apply head_Some_elem_of in Hc.
    apply list_elem_of_omap in Hc as (cand & Hcand & Hlook).
    rewrite lower_mapping_lookup in Hlook.
    pose proof Hlook as Hlast. apply last_Some in Hlook as [l' Hl'].
    assert (Hin : c ∈ filter (fun c' => lower c' = cand) cols).
    { rewrite Hl'. apply elem_of_app. right. apply elem_of_cons. by left. }
    apply list_elem_of_filter in Hin as [<- Hin]. done.
  - rewrite head_None. split.
    + intros Hnil c Hc Hcand.
      assert (Hin : c ∈ omap (fun cand => lower_mapping cols !! cand) candidates);
        [|rewrite Hnil in Hin; by apply elem_of_nil in Hin].
      destruct (lower_mapping cols !! lower c) as [c'|] eqn:Hlook.
      * exfalso.
        assert (Hin : c' ∈ omap (fun cand => lower_mapping cols !! cand) candidates).
        { apply list_elem_of_omap. by exists (lower c). }
        rewrite Hnil in Hin. by apply elem_of_nil in Hin.
      * exfalso. rewrite lower_mapping_lookup in Hlook. apply last_None in Hlook.
        assert (Hin : c ∈ filter (fun c' => lower c' = lower c) cols).
        { by apply list_elem_of_filter. }
        rewrite Hlook in Hin. by apply elem_of_nil in Hin.
    + intros Hnone. destruct (omap _ candidates) as [|c l] eqn:Ho; [done|]. exfalso.
      assert (Hin : c ∈ omap (fun cand => lower_mapping cols !! cand) candidates).
      { rewrite Ho. apply elem_of_cons. by left. }
      apply list_elem_of_omap in Hin as (cand & Hcand & Hlook).
      rewrite lower_mapping_lookup in Hlook. apply last_Some in Hlook as [l' Hl'].
      assert (Hin : c ∈ filter (fun c' => lower c' = cand) cols).
      { rewrite Hl'. apply elem_of_app. right. apply elem_of_cons. by left. }
      apply list_elem_of_filter in Hin as [<- Hin]. by apply (Hnone c).
Qed.

Lemma list_ascii_of_string_app s t :
  list_ascii_of_string (s +:+ t) = list_ascii_of_string s ++ list_ascii_of_string t.
Proof. induction s as [|a s IH]; [done|]. simpl. by rewrite IH. Qed.

Lemma lower_app s t : lower (s +:+ t) = lower s +:+ lower t.
Proof. induction s as [|a s IH]; [done|]. simpl. by rewrite IH. Qed.

Lemma length_lower s : String.length (lower s) = String.length s.
Proof. induction s as [|a s IH]; [done|]. simpl. by rewrite IH. Qed.

Lemma length_list_ascii_of_string s :
  length (list_ascii_of_string s) = String.length s.
Proof. induction s as [|a s IH]; [done|]. simpl. by rewrite IH. Qed.

(** X19: a file name made of a prefix that reads [weather_] and a
    suffix that reads [.csv], in any letter case, around a text [s] is
    read as the station code [s] in upper case.  So the cache file the
    fetch script writes for a station is listed under that station's
    code. *)
Theorem iata_of_filename_reads_station p s q :
  lower p = "weather_" → lower q = ".csv" →
  iata_of_filename (p +:+ s +:+ q) = Some (Py.upper s).
Proof.
  intros Hp Hq. unfold iata_of_filename.
  assert (Hlp : length (list_ascii_of_string p) = 8%nat).
  { by rewrite length_list_ascii_of_string, <- length_lower, Hp. }
  assert (Hlq : length (list_ascii_of_string q) = 4%nat).
  { by rewrite length_list_ascii_of_string, <- length_lower, Hq. }
  rewrite !lower_app, Hp, Hq, !list_ascii_of_string_app.
  rewrite bool_decide_true by (by eexists).
  rewrite bool_decide_true by (eexists; by rewrite app_assoc).
  simpl andb. cbv iota. f_equal. f_equal.
  rewrite app_assoc.
  replace (length ((list_ascii_of_string p ++ list_ascii_of_string s)
                   ++ list_ascii_of_string q) - 4)%nat
    with (length (list_ascii_of_string p ++ list_ascii_of_string s)).
  2:{ rewrite (length_app (_ ++ _)), Hlq. lia. }
  rewrite take_app_length. rewrite <- Hlp, drop_app_length.
  apply string_of_list_ascii_of_string.
Qed.

(** * Closed instances of the further properties *)

Lemma months_between_periods_witness :
  ∃ y m,
    1 ≤ y ≤ 9999 ∧ 1 ≤ m ≤ 12
    ∧ Date.mk 2024 2 1 = Date.mk y m 1
    ∧ Date.mk 2024 2 29
      = (if Date.gtb (Date.mk y m (Date.days_in_month y m)) END_DATE then END_DATE
         else Date.mk y m (Date.days_in_month y m))
    ∧ Date.leb START_DATE (Date.mk 2024 2 1) = true
    ∧ Date.leb (Date.mk 2024 2 1) END_DATE = true
    ∧ Date.leb (Date.mk 2024 2 29) END_DATE = true.
Proof.
  apply (months_between_periods START_DATE END_DATE (Date.mk 2024 2 1, Date.mk 2024 2 29)).
  - unfold valid_date. vm_compute. split_and!; discriminate.
  - unfold valid_date. vm_compute. split_and!; discriminate.
  - apply (list_elem_of_lookup_2 _ 1%nat). reflexivity.
Defined.

Lemma months_between_tiles_witness :
  (∀ i p q, months_between START_DATE END_DATE !! i = Some p →
            months_between START_DATE END_DATE !! S i = Some q →
            Date.toordinal q.1 = Date.toordinal p.2 + 1)
  ∧ (∀ p, last (months_between START_DATE END_DATE) = Some p → p.2 = END_DATE)
  ∧ (∀ p, head (months_between START_DATE END_DATE) = Some p →
          day START_DATE = 1 → p.1 = START_DATE)
  ∧ length (months_between START_DATE END_DATE)
    = Z.to_nat (month_index END_DATE - first_month START_DATE + 1).
Proof.
  apply (months_between_tiles START_DATE END_DATE).
  - unfold valid_date. vm_compute. split_and!; discriminate.
  - unfold valid_date. vm_compute. split_and!; discriminate.
Defined.

Lemma station_served_witness :
  ∃ rows,
    Forall (fun r => r_iata r = "JFK") rows
    ∧ requests_made
        (trace (process_station Sample.always_ok Sample.registry Sample.time_parses "JFK"
                  Sample.fresh))
      = (requests_made (trace Sample.fresh) + 12)%nat
    ∧ if Sample.time_parses (r_time <$> rows) then
        station_flow Sample.always_ok Sample.registry Sample.time_parses "JFK" Sample.fresh
        = Next
        ∧ process_station Sample.always_ok Sample.registry Sample.time_parses "JFK"
            Sample.fresh
          = {| cache := <[cache_name "JFK" := rows]> (cache Sample.fresh);
               logfile := Some (default [] (logfile Sample.fresh) ++ [["JFK"; "ok"; "salvo"]]);
               trace := trace Sample.fresh
                        ++ concat (month_events {| lat := 40.64; lon := -73.78 |}
                                     <$> months_between START_DATE END_DATE)
                        ++ [EvWriteCache (cache_name "JFK") rows;
                            EvLog ["JFK"; "ok"; "salvo"]] |}
      else
        station_flow Sample.always_ok Sample.registry Sample.time_parses "JFK" Sample.fresh
        = Uncaught
        ∧ process_station Sample.always_ok Sample.registry Sample.time_parses "JFK"
            Sample.fresh
          = {| cache := cache Sample.fresh;
               logfile := logfile Sample.fresh;
               trace := trace Sample.fresh
                        ++ concat (month_events {| lat := 40.64; lon := -73.78 |}
                                     <$> months_between START_DATE END_DATE) |}.
Proof.
  apply (station_served Sample.always_ok Sample.registry Sample.time_parses "JFK"
           {| lat := 40.64; lon := -73.78 |} Sample.fresh).
  - reflexivity.
  - reflexivity.
  - intros n p. exists Sample.one_day. split; [reflexivity|].
    eexists _, _. split; reflexivity.
Defined.

Lemma station_other_exceptions_witness :
  let first := make_params {| lat := 40.64; lon := -73.78 |} (Date.mk 2024 1 1) (Date.mk 2024 1 31) in
  let w' :=
    process_station Sample.always_failing Sample.registry Sample.time_parses "JFK"
      Sample.fresh in
  trace w'
  = trace Sample.fresh
    ++ [EvRequest first; EvSleep 3; EvRequest first; EvSleep 4;
        EvRequest first; EvSleep 5; EvRequest first; EvSleep 6;
        EvRequest first; EvSleep 7; EvRequest first; EvSleep 8;
        EvLog ["JFK"; "failed"; "partial_or_429"]]
  ∧ logfile w'
    = Some (default [] (logfile Sample.fresh) ++ [["JFK"; "failed"; "partial_or_429"]])
  ∧ cache w' = cache Sample.fresh.
Proof.
  apply (station_other_exceptions Sample.always_failing Sample.registry Sample.time_parses
           "JFK" {| lat := 40.64; lon := -73.78 |} Sample.fresh).
  - reflexivity.
  - reflexivity.
  - intros n sdate edate. left. reflexivity.
Defined.

Lemma period_recovers_after_rate_limit_witness :
  let params :=
    make_params {| lat := 40.64; lon := -73.78 |} (Date.mk 2024 1 1) (Date.mk 2024 1 31) in
  ∃ dfw w',
    retry_loop Sample.limited_twice "JFK" params (seqZ 1 RETRY_ATTEMPTS) 1 Sample.fresh
    = (Fetched dfw, w')
    ∧ cache w' = cache Sample.fresh ∧ logfile w' = logfile Sample.fresh
    ∧ requests_made (trace w') = (requests_made (trace Sample.fresh) + 2 + 1)%nat
    ∧ ∃ evs, trace w' = trace Sample.fresh ++ evs
        ∧ sleeps evs
          = ((fun i => 60 + 2 ^ Z.of_nat i) <$> seq 0 2) ++ [SLEEP_BETWEEN_REQUESTS].
Proof.
  intros params.
  apply (period_recovers_after_rate_limit Sample.limited_twice "JFK" params 2%nat
           Sample.fresh Sample.one_day).
  - lia.
  - intros i Hi. destruct i as [|[|i]]; [reflexivity | reflexivity | lia].
  - reflexivity.
  - eexists _, _. split; reflexivity.
Defined.

Lemma run_keeps_cache_files_witness :
  cache Sample.stray_cache !! cache_name "XXX" = Some []
  ∧ cache (resume Sample.always_ok Sample.registry Sample.time_parses ["JFK"]
             Sample.stray_cache)
      !! cache_name "XXX" = Some [].
Proof.
  split; [reflexivity|].
  apply (run_keeps_cache_files Sample.always_ok Sample.registry Sample.time_parses ["JFK"]
           Sample.stray_cache).
  reflexivity.
Defined.

Lemma matched_and_missing_add_up_witness :
  let wa := (read_and_stack_weather Sample.to_datetime SELECTED Sample.weather_dir).1 in
  let out := main Sample.to_datetime Sample.flights Sample.weather_dir in
  rows wa ≠ []
  ∧ ∃ missing,
      out_missing_matches out = Some missing
      ∧ (n_matched (columns wa) (out_merged out) + length missing
         = length (out_merged out))%nat
      ∧ length (out_merged out) = length (select_flights Sample.to_datetime Sample.flights).
Proof.
  assert (H : rows (read_and_stack_weather Sample.to_datetime SELECTED Sample.weather_dir).1 ≠ []).
  { apply (bool_decide_unpack _). vm_compute. exact I. }
  split; [exact H|].
  exact (matched_and_missing_add_up Sample.to_datetime Sample.flights Sample.weather_dir H).
Defined.

Lemma main_without_any_weather_file_witness :
  (∀ iata, iata ∈ SELECTED → (∅ : gmap string Frame) !! weather_name iata = None)
  ∧ main Sample.to_datetime Sample.flights ∅
    = {| out_merged :=
           (fun f => {| m_flight := f; m_weather := None |})
             <$> select_flights Sample.to_datetime Sample.flights;
         out_missing_orig :=
           ["ALB"; "ANC"; "ATL"; "BOS"; "DEN"; "HNL"; "IAH"; "JFK"; "LAS"; "LAX";
            "MIA"; "MSP"; "MSY"; "ORD"; "PHL"; "PHX"; "SEA"; "SFO"; "SJU"; "SLC"];
         out_missing_matches := None |}.
Proof.
  assert (H : ∀ iata, iata ∈ SELECTED → (∅ : gmap string Frame) !! weather_name iata = None).
  { intros iata _. apply lookup_empty. }
  split; [exact H|].
  exact (main_without_any_weather_file Sample.to_datetime Sample.flights ∅ H).
Defined.

Lemma lookup_0_nonempty {A} (l : list A) : l ≠ [] → ∃ x, l !! 0%nat = Some x.
Proof. destruct l as [|x l]; [done | by exists x]. Qed.

Lemma stacked_row_provenance_witness :
  ∃ r s,
    rows (read_and_stack_weather Sample.to_datetime SELECTED Sample.weather_dir).1 !! 0%nat
    = Some r
    ∧ s ∈ (read_and_stack_weather Sample.to_datetime SELECTED Sample.weather_dir).2
    ∧ r !! "source_file" = Some (weather_name s).
Proof.
  assert (H : rows (read_and_stack_weather Sample.to_datetime SELECTED Sample.weather_dir).1 ≠ []).
  { apply (bool_decide_unpack _). vm_compute. exact I. }
  destruct (lookup_0_nonempty _ H) as [r Hr].
  destruct (stacked_row_provenance Sample.to_datetime Sample.weather_dir r)
    as (s & w & raw & Hs & _ & _ & Hfile & _).
  - exact (list_elem_of_lookup_2 _ _ _ Hr).
  - exists r, s. split_and!; [exact Hr | exact Hs | exact Hfile].
Defined.

(** A body with an empty [time] array and one value of a variable is
    accepted: the frame takes the length of the value, its [time] cell
    null.  A station served such bodies makes twelve requests and is
    logged [ok]. *)
Example empty_time_is_accepted :
  build_frame "JFK" [] [("time", []); ("temperature_2m_max", [Some "5.0"])]
  = Some {| p_time := [None]; p_cols := [("temperature_2m_max", [Some "5.0"])];
            p_iata := "JFK" |}
  ∧ (let w' :=
       process_station (fun _ _ => Body Sample.empty_time) Sample.registry Sample.time_parses
         "JFK" Sample.fresh in
     requests_made (trace w') = 12%nat
     ∧ logfile w' = Some [["JFK"; "ok"; "salvo"]]).
Proof. vm_compute. split_and!; reflexivity. Qed.

Lemma iata_of_filename_reads_station_witness :
  Inventory.lower "Weather_" = "weather_" ∧ Inventory.lower ".CSV" = ".csv"
  ∧ iata_of_filename ("Weather_" +:+ "jfk" +:+ ".CSV") = Some (Py.upper "jfk").
Proof.
  split_and!; [reflexivity | reflexivity |].
  apply (iata_of_filename_reads_station "Weather_" "jfk" ".CSV"); reflexivity.
Defined.
